(** * Verification of the NRSE privacy services

    A shallow embedding of [services/k_anonymity_service.py] and
    [services/differential_privacy_service.py], and the properties of
    the anonymization engine stated over it.

    Conventions of the embedding:
    - a Python [str] is the list of its Unicode code points, so [len],
      slicing and [count] are those of the list;
    - a Python [float] is a rational number: the finite floats with exact
      arithmetic (no rounding, no [inf], no [nan]); the information-loss
      estimator, whose outcome turns on overflow and underflow, is
      embedded over the IEEE 754 binary64 floats instead;
    - a Python [dict] used as a record is a [gmap] from field names;
    - a raised exception is the [Raise] case of [result]. *)

From Stdlib Require Import ZArith QArith Qround Qabs Qminmax String Ascii
  DecimalString Lqa Lia SpecFloat.
From stdpp Require Import gmap list fin_maps sorting.

Local Open Scope Z_scope.

(** ** Python strings *)

Abbreviation pystr := (list N).

Fixpoint utf8_bytes (s : string) : list N :=
  match s with
  | EmptyString => []
  | String a r => N_of_ascii a :: utf8_bytes r
  end.

(** Decoding of the UTF-8 bytes of a literal into code points. *)
Fixpoint utf8_decode (l : list N) : pystr :=
  match l with
  | [] => []
  | b :: r =>
    if (b <? 128)%N then b :: utf8_decode r
    else match r with
    | [] => [b]
    | b2 :: r2 =>
      if (b <? 224)%N
      then ((b - 192) * 64 + (b2 - 128))%N :: utf8_decode r2
      else match r2 with
      | [] => [b; b2]
      | b3 :: r3 =>
        if (b <? 240)%N
        then ((b - 224) * 4096 + (b2 - 128) * 64 + (b3 - 128))%N
               :: utf8_decode r3
        else match r3 with
        | [] => [b; b2; b3]
        | b4 :: r4 =>
          ((b - 240) * 262144 + (b2 - 128) * 4096
           + (b3 - 128) * 64 + (b4 - 128))%N :: utf8_decode r4
        end
      end
    end
  end.

Definition u8 (s : string) : pystr := utf8_decode (utf8_bytes s).

(** [needle in hay] on strings. *)
Fixpoint starts_with (p s : pystr) : bool :=
  match p, s with
  | [], _ => true
  | _ :: _, [] => false
  | a :: p', b :: s' => bool_decide (a = b) && starts_with p' s'
  end.

Fixpoint str_contains (needle hay : pystr) : bool :=
  starts_with needle hay ||
  match hay with
  | [] => false
  | _ :: hay' => str_contains needle hay'
  end.

(** [s.count(c)] for a one-character [c]. *)
Definition str_count (c : N) (s : pystr) : nat :=
  length (filter (λ x, x = c) s).

(** The characters [str.strip()] removes: those with [str.isspace()]. *)
Definition is_space (c : N) : bool :=
  ((9 <=? c) && (c <=? 13) || (28 <=? c) && (c <=? 32)
   || (c =? 133) || (c =? 160) || (c =? 5760)
   || (8192 <=? c) && (c <=? 8202) || (c =? 8232) || (c =? 8233)
   || (c =? 8239) || (c =? 8287) || (c =? 12288))%N.

Fixpoint lstrip (s : pystr) : pystr :=
  match s with
  | c :: r => if is_space c then lstrip r else s
  | [] => []
  end.

Definition strip (s : pystr) : pystr := rev (lstrip (rev (lstrip s))).

(** [str(n)] for an [int]. *)
Definition str_int (z : Z) : pystr :=
  utf8_bytes (NilZero.string_of_int (Z.to_int z)).

(** ** Python values and exceptions *)

Inductive value :=
| VNone
| VInt (z : Z)
| VFloat (q : Q)
| VStr (s : pystr).

Inductive pyerror :=
| TypeError
| ValueError
| AttributeError
| IndexError
| ZeroDivisionError
| OverflowError.

Inductive result (A : Type) :=
| Ok (a : A)
| Raise (e : pyerror).
Arguments Ok {A} a.
Arguments Raise {A} e.

Definition rbind {A B} (r : result A) (f : A → result B) : result B :=
  match r with
  | Ok a => f a
  | Raise e => Raise e
  end.

Notation "'let?' x ':=' r 'in' k" := (rbind r (λ x, k))
  (at level 10, x name, r at level 100, k at level 200).
Notation "'let?' ' p ':=' r 'in' k" := (rbind r (λ 'p, k))
  (at level 10, p strict pattern, r at level 100, k at level 200).

(** [for x in l: acc = f(acc, x)], stopping at the first exception. *)
Fixpoint rfold {A B} (f : B → A → result B) (l : list A) (acc : B)
  : result B :=
  match l with
  | [] => Ok acc
  | x :: r => let? acc' := f acc x in rfold f r acc'
  end.

(** [[f(x) for x in l]], stopping at the first exception. *)
Fixpoint rmap {A B} (f : A → result B) (l : list A) : result (list B) :=
  match l with
  | [] => Ok []
  | x :: r => let? y := f x in let? ys := rmap f r in Ok (y :: ys)
  end.

(** Truth value of a Python object ([not v] is its negation). *)
Definition truthy (v : value) : bool :=
  match v with
  | VNone => false
  | VInt z => negb (z =? 0)
  | VFloat q => negb (Qeq_bool q 0)
  | VStr s => negb (bool_decide (s = []))
  end.

(** [a == b] on values: numbers compare by value, across [int] and
    [float]. *)
Definition py_eq (a b : value) : bool :=
  match a, b with
  | VNone, VNone => true
  | VInt x, VInt y => x =? y
  | VInt x, VFloat y => Qeq_bool (inject_Z x) y
  | VFloat x, VInt y => Qeq_bool x (inject_Z y)
  | VFloat x, VFloat y => Qeq_bool x y
  | VStr s, VStr t => bool_decide (s = t)
  | _, _ => false
  end.

(** [min(a, b)] and [max(a, b)] of two floats: the first argument wins a
    tie. *)
Definition py_min (a b : Q) : Q := if Qlt_le_dec b a then b else a.
Definition py_max (a b : Q) : Q := if Qlt_le_dec a b then b else a.

(** [round(x)]: to the nearest integer, a tie to the even one. *)
Definition py_round (x : Q) : Z :=
  let f := Qfloor x in
  let d := (x - inject_Z f)%Q in
  if Qlt_le_dec d (1#2) then f
  else if Qlt_le_dec (1#2) d then f + 1
  else if Z.even f then f else f + 1.

(** [round(x, 4)]. *)
Definition round4 (x : Q) : Q :=
  (inject_Z (py_round (x * 10000)) / 10000)%Q.

(** [int(x)] of a float: truncation towards zero. *)
Definition py_int (x : Q) : Z :=
  if Qlt_le_dec x 0 then Qceiling x else Qfloor x.

Definition qlt (x y : Q) : bool := if Qlt_le_dec x y then true else false.
Definition qle (x y : Q) : bool := if Qlt_le_dec y x then false else true.

#[global] Instance Qle_decision (x y : Q) : Decision (x <= y)%Q :=
  match Qlt_le_dec y x with
  | left Hlt => right (Qlt_not_le y x Hlt)
  | right Hle => left Hle
  end.

(** [max(l)] and [min(l)] of a non-empty list of floats. *)
Definition max_list_Q (x : Q) (l : list Q) : Q := foldl py_max x l.
Definition min_list_Q (x : Q) (l : list Q) : Q := foldl py_min x l.

(** [sum(l)] and [np.mean(l)]. *)
Definition sum_Q (l : list Q) : Q := foldl Qplus 0%Q l.
Definition mean_Q (l : list Q) : Q :=
  (sum_Q l / inject_Z (Z.of_nat (length l)))%Q.

(** ** Floats at the ends of their range

    The information-loss estimator divides by a range that can
    overflow, and its loss can underflow; it is embedded over the
    IEEE 754 binary64 floats of the Standard Library: [spec_float] with
    53 bits of mantissa and the exponent bound 1024, whose operations
    round to the nearest float, a tie to the even one. *)

Abbreviation float64 := spec_float.

Definition f64_add : float64 → float64 → float64 := SFadd 53 1024.
Definition f64_sub : float64 → float64 → float64 := SFsub 53 1024.
Definition f64_div : float64 → float64 → float64 := SFdiv 53 1024.
Definition f64_lt : float64 → float64 → bool := SFltb.
Definition f64_abs : float64 → float64 := SFabs.
Definition f64_zero : float64 := S754_zero false.
Definition f64_one : float64 := SFone 53 1024.

(** An integer as an unrounded binary number. *)
Definition Z2SF (z : Z) : float64 :=
  match z with
  | 0 => S754_zero false
  | Zpos p => S754_finite false p 0
  | Zneg p => S754_finite true p 0
  end.

(** The float nearest to a rational, [inf] beyond the range: numerator
    by denominator, rounded once. It is the float itself for the value
    of a float, [float(n)] for an int [n] in range, the float that a
    decimal numeral denotes, and [a / b] for two ints. *)
Definition float_of_Q (q : Q) : float64 :=
  f64_div (Z2SF (Qnum q)) (S754_finite false (Qden q) 0).

(** [max(l)] and [min(l)] of a non-empty list of floats: the running
    item is replaced by a greater, or a smaller, one. *)
Definition max_list_f64 (x : float64) (l : list float64) : float64 :=
  foldl (λ m y, if f64_lt m y then y else m) x l.
Definition min_list_f64 (x : float64) (l : list float64) : float64 :=
  foldl (λ m y, if f64_lt y m then y else m) x l.

(** [min(a, b)] *)
Definition min_f64 (a b : float64) : float64 := if f64_lt b a then b else a.

(** The magnitude from which [float] of an int raises [OverflowError]:
    the ints below it round to a float, the others to the power
    [2 ^ 1024]. *)
Definition float_int_bound : Z := 2 ^ 1024 - 2 ^ 970.

(** A record: a [dict] from field names to values. *)
Abbreviation row := (gmap pystr value).

(** The equivalence classes of a data set, in the order their keys were first met, the members of
    each in the order of the data. *)
Abbreviation classes := (list (list pystr * list row)).

(** [d.get(key)] on a literal table kept in source order. *)
Fixpoint table_get {A} (key : pystr) (d : list (pystr * A)) : option A :=
  match d with
  | [] => None
  | (k, v) :: r => if bool_decide (k = key) then Some v else table_get key r
  end.

(** ** The interpreter

    The functions of the Python runtime that the services call and that
    the embedding takes as given. *)
Class PyRuntime := {
  (** [float(s)] of a string, by the exact value of the numeral; [None]
      stands for the [ValueError]. The float is the nearest one, [inf]
      for a value that reaches [float_int_bound]; the literals of an
      infinity and of a nan are not numerals of the embedding. *)
  float_parse : pystr → option Q;
  (** [str(x)] of a float. *)
  float_repr : Q → pystr;
  (** The digit value of a character, for the characters that the
      regular expression class of decimal digits accepts. *)
  digit_val : N → option N
}.

(** ** The k-anonymity service *)

Section KAnonymityService.

Context `{PyRuntime}.
(** [self.k] *)
Variable k : Z.

(** [float(v)], by its exact value: an int in range stands for the
    float it rounds to, and a numeral for the float it denotes
    ([float_of_Q] gives these floats where the rounding matters). *)
Definition py_float (v : value) : result Q :=
  match v with
  | VNone => Raise TypeError
  | VInt z =>
    if Z.abs z <? float_int_bound then Ok (inject_Z z)
    else Raise OverflowError
  | VFloat q => Ok q
  | VStr s =>
    match float_parse s with
    | Some q => Ok q
    | None => Raise ValueError
    end
  end.

Definition py_str (v : value) : pystr :=
  match v with
  | VNone => u8 "None"
  | VInt z => str_int z
  | VFloat q => float_repr q
  | VStr s => s
  end.

(** [v < c] for a numeric constant [c]: a [TypeError] on [None] and on
    strings. *)
Definition num_lt (v : value) (c : Q) : result bool :=
  match v with
  | VInt z => Ok (qlt (inject_Z z) c)
  | VFloat q => Ok (qlt q c)
  | VNone | VStr _ => Raise TypeError
  end.

Definition chain_hierarchy : list (pystr * list pystr) :=
  [ (u8 "上游", [u8 "上游-原材料"; u8 "上游-设备"; u8 "上游-零部件"]);
    (u8 "中游", [u8 "中游-制造"; u8 "中游-封装"; u8 "中游-组装"]);
    (u8 "下游", [u8 "下游-应用"; u8 "下游-销售"; u8 "下游-服务"]) ].

Definition _build_region_hierarchy : list (pystr * list pystr) :=
  [ (u8 "华北", map u8 ["北京市"; "天津市"; "河北省"; "山西省";
                        "内蒙古自治区"]%string);
    (u8 "华东", map u8 ["上海市"; "江苏省"; "浙江省"; "安徽省"; "福建省";
                        "江西省"; "山东省"]%string);
    (u8 "华南", map u8 ["广东省"; "广西壮族自治区"; "海南省"]%string);
    (u8 "华中", map u8 ["河南省"; "湖北省"; "湖南省"]%string);
    (u8 "西南", map u8 ["重庆市"; "四川省"; "贵州省"; "云南省";
                        "西藏自治区"]%string);
    (u8 "西北", map u8 ["陕西省"; "甘肃省"; "青海省"; "宁夏回族自治区";
                        "新疆维吾尔自治区"]%string);
    (u8 "东北", map u8 ["辽宁省"; "吉林省"; "黑龙江省"]%string) ].

Definition region_hierarchy := _build_region_hierarchy.

(** A bin boundary: a number or [float('inf')]. *)
Inductive bound :=
| Fin (q : Q)
| Inf.

Definition bound_le (b : bound) (x : Q) : bool :=
  match b with
  | Fin q => qle q x
  | Inf => false
  end.

(** [x < b]. Below [inf] lies every float but [inf] itself, the float
    of a numeral whose value reaches [float_int_bound]. *)
Definition lt_bound (x : Q) (b : bound) : bool :=
  match b with
  | Fin q => qlt x q
  | Inf => qlt x (inject_Z float_int_bound)
  end.

(** [for i in range(len(bins) - 1): if bins[i] <= x < bins[i + 1]:
    return labels[i]] *)
Fixpoint find_bin (bins : list bound) (labels : list pystr) (x : Q)
  : option pystr :=
  match bins, labels with
  | lo :: (hi :: _) as rest, lab :: labs =>
    if bound_le lo x && lt_bound x hi then Some lab
    else find_bin rest labs x
  | _, _ => None
  end.

Definition revenue_bins (level : Z) : list bound * list pystr :=
  if level =? 1 then
    ([Fin 0; Fin 1; Fin 5; Fin 10; Fin 50; Fin 100; Fin 500; Inf],
     map u8 ["1亿以下"; "1-5亿"; "5-10亿"; "10-50亿"; "50-100亿";
             "100-500亿"; "500亿以上"]%string)
  else if level =? 2 then
    ([Fin 0; Fin 10; Fin 50; Fin 100; Inf],
     map u8 ["10亿以下"; "10-50亿"; "50-100亿"; "100亿以上"]%string)
  else
    ([Fin 0; Fin 50; Fin 100; Inf],
     map u8 ["50亿以下"; "50-100亿"; "100亿以上"]%string).

Definition generalize_revenue (revenue : value) (level : Z) : result value :=
  match revenue with
  | VNone => Ok (VStr (u8 "未知"))
  | _ =>
    match py_float revenue with
    | Raise TypeError | Raise ValueError => Ok (VStr (u8 "未知"))
    | Raise e => Raise e
    | Ok revenue =>
      let '(bins, labels) := revenue_bins level in
      match find_bin bins labels revenue with
      | Some label => Ok (VStr label)
      | None => Ok (VStr (u8 "未知"))
      end
    end
  end.

Definition generalize_market_share (share : value) (level : Z)
  : result value :=
  match share with
  | VNone => Ok (VStr (u8 "未知"))
  | _ =>
    if level =? 1 then
      let? c := num_lt share 1 in
      if c then Ok (VStr (u8 "1%以下")) else
      let? c := num_lt share 5 in
      if c then Ok (VStr (u8 "1-5%")) else
      let? c := num_lt share 10 in
      if c then Ok (VStr (u8 "5-10%")) else
      let? c := num_lt share 20 in
      if c then Ok (VStr (u8 "10-20%")) else
      let? c := num_lt share 50 in
      if c then Ok (VStr (u8 "20-50%")) else
      Ok (VStr (u8 "50%以上"))
    else if level =? 2 then
      let? c := num_lt share 5 in
      if c then Ok (VStr (u8 "5%以下")) else
      let? c := num_lt share 20 in
      if c then Ok (VStr (u8 "5-20%")) else
      let? c := num_lt share 50 in
      if c then Ok (VStr (u8 "20-50%")) else
      Ok (VStr (u8 "50%以上"))
    else
      let? c := num_lt share 10 in
      if c then Ok (VStr (u8 "10%以下")) else
      let? c := num_lt share 50 in
      if c then Ok (VStr (u8 "10-50%")) else
      Ok (VStr (u8 "50%以上"))
  end.

Definition generalize_rd_ratio (ratio : value) (level : Z) : result value :=
  match ratio with
  | VNone => Ok (VStr (u8 "未知"))
  | _ =>
    if level =? 1 then
      let? c := num_lt ratio 5 in
      if c then Ok (VStr (u8 "低投入(5%以下)")) else
      let? c := num_lt ratio 10 in
      if c then Ok (VStr (u8 "中等投入(5-10%)")) else
      let? c := num_lt ratio 15 in
      if c then Ok (VStr (u8 "较高投入(10-15%)")) else
      Ok (VStr (u8 "高投入(15%以上)"))
    else if level =? 2 then
      let? c := num_lt ratio 10 in
      if c then Ok (VStr (u8 "中低投入(10%以下)")) else
      Ok (VStr (u8 "中高投入(10%以上)"))
    else
      let? c := num_lt ratio 15 in
      if c then Ok (VStr (u8 "一般投入")) else
      Ok (VStr (u8 "高投入"))
  end.

(** The first category one of whose stages occurs in [stage]. *)
Fixpoint chain_category (hierarchy : list (pystr * list pystr))
  (stage : pystr) : option pystr :=
  match hierarchy with
  | [] => None
  | (category, stages) :: rest =>
    if existsb (λ s, str_contains s stage) stages then Some category
    else chain_category rest stage
  end.

Definition generalize_chain_stage (stage : value) (level : Z)
  : result value :=
  if negb (truthy stage) then Ok (VStr (u8 "未知"))
  else if level =? 1 then Ok stage
  else if level =? 2 then
    match stage with
    | VStr s =>
      match chain_category chain_hierarchy s with
      | Some category => Ok (VStr category)
      | None =>
        if str_contains (u8 "上游") s then Ok (VStr (u8 "上游"))
        else if str_contains (u8 "中游") s then Ok (VStr (u8 "中游"))
        else if str_contains (u8 "下游") s then Ok (VStr (u8 "下游"))
        else Ok stage
      end
    | _ => Raise TypeError
    end
  else Ok (VStr (u8 "产业链企业")).

Definition _build_city_mapping : list (pystr * pystr) :=
  map (λ p : string * string, (u8 p.1, u8 p.2)) [
    ("北京", "北京市"); ("上海", "上海市"); ("天津", "天津市");
    ("重庆", "重庆市"); ("苏州", "江苏省"); ("南京", "江苏省");
    ("无锡", "江苏省"); ("常州", "江苏省"); ("南通", "江苏省");
    ("徐州", "江苏省"); ("扬州", "江苏省"); ("盐城", "江苏省");
    ("深圳", "广东省"); ("广州", "广东省"); ("东莞", "广东省");
    ("佛山", "广东省"); ("惠州", "广东省"); ("珠海", "广东省");
    ("杭州", "浙江省"); ("宁波", "浙江省"); ("温州", "浙江省");
    ("嘉兴", "浙江省"); ("绍兴", "浙江省"); ("合肥", "安徽省");
    ("芜湖", "安徽省"); ("滁州", "安徽省"); ("成都", "四川省");
    ("宜宾", "四川省"); ("绵阳", "四川省"); ("西安", "陕西省");
    ("咸阳", "陕西省"); ("长沙", "湖南省"); ("株洲", "湖南省");
    ("武汉", "湖北省"); ("宜昌", "湖北省"); ("宁德", "福建省");
    ("福州", "福建省"); ("厦门", "福建省"); ("青岛", "山东省");
    ("济南", "山东省"); ("烟台", "山东省"); ("宜春", "江西省");
    ("南昌", "江西省"); ("赣州", "江西省"); ("郑州", "河南省");
    ("石家庄", "河北省"); ("太原", "山西省"); ("沈阳", "辽宁省");
    ("大连", "辽宁省"); ("长春", "吉林省"); ("哈尔滨", "黑龙江省");
    ("贵阳", "贵州省"); ("昆明", "云南省"); ("兰州", "甘肃省");
    ("银川", "宁夏回族自治区"); ("乌鲁木齐", "新疆维吾尔自治区");
    ("呼和浩特", "内蒙古自治区") ]%string.

(** The first region whose province list holds [province]. *)
Fixpoint region_of (hierarchy : list (pystr * list pystr))
  (province : pystr) : option pystr :=
  match hierarchy with
  | [] => None
  | (region, provinces) :: rest =>
    if bool_decide (province ∈ provinces) then Some region
    else region_of rest province
  end.

Definition generalize_headquarters (location : value) (level : Z)
  : result value :=
  if negb (truthy location) then Ok (VStr (u8 "未知"))
  else match location with
  | VStr s =>
    let city_name := strip s in
    if level =? 1 then Ok (VStr city_name)
    else
      let city_to_province := _build_city_mapping in
      match table_get city_name city_to_province with
      | None => Ok (VStr (u8 "其他地区"))
      | Some province_name =>
        if negb (truthy (VStr province_name))
        then Ok (VStr (u8 "其他地区"))
        else if level =? 2 then Ok (VStr province_name)
        else if level =? 3 then
          match region_of region_hierarchy province_name with
          | Some region => Ok (VStr region)
          | None => Ok (VStr (u8 "中国"))
          end
        else Ok (VStr (u8 "未知"))
      end
  | _ => Raise AttributeError
  end.

Definition generalize_sensitivity_level (level : value)
  (generalize_level : Z) : result value :=
  if negb (truthy level) then Ok (VStr (u8 "未知"))
  else if generalize_level =? 1 then Ok level
  else if existsb (py_eq level) [VStr (u8 "高"); VStr (u8 "较高")]
       then Ok (VStr (u8 "高敏感"))
       else Ok (VStr (u8 "低敏感")).

Definition suppress_enterprise_info (val : value) : pystr := u8 "*".

Definition star : N := 42%N.

(** The default branch of [apply_generalization]: the new value of the
    field, or [None] when the field is left as it is. *)
Definition generalize_default (val : value) (level : Z) : option value :=
  match val with
  | VStr s =>
    if (3 <? length s)%nat then
      if level =? 1 then Some val
      else if level =? 2 then
        Some (VStr (take (length s / 2) s
                    ++ replicate (length s - length s / 2) star))
      else Some (VStr (u8 "*"))
    else None
  | _ => None
  end.

(** The body of the loop of [apply_generalization] for one field. *)
Definition generalize_field (record generalized_record : row)
  (generalization_levels : gmap pystr Z) (field : pystr) : result row :=
  match record !! field with
  | None => Ok generalized_record
  | Some val =>
    let level := default 1 (generalization_levels !! field) in
    if bool_decide (field = u8 "revenue_2023") then
      let? g := generalize_revenue val level in
      Ok (<[field := g]> generalized_record)
    else if bool_decide (field = u8 "domestic_market_share") then
      let? g := generalize_market_share val level in
      Ok (<[field := g]> generalized_record)
    else if bool_decide (field = u8 "r_and_d_ratio") then
      let? g := generalize_rd_ratio val level in
      Ok (<[field := g]> generalized_record)
    else if bool_decide (field = u8 "chain_stage") then
      let? g := generalize_chain_stage val level in
      Ok (<[field := g]> generalized_record)
    else if bool_decide (field = u8 "headquarters") then
      let? g := generalize_headquarters val level in
      Ok (<[field := g]> generalized_record)
    else if bool_decide (field = u8 "sensitivity_level") then
      let? g := generalize_sensitivity_level val level in
      Ok (<[field := g]> generalized_record)
    else
      match generalize_default val level with
      | Some g => Ok (<[field := g]> generalized_record)
      | None => Ok generalized_record
      end
  end.

Definition apply_generalization (record : row)
  (quasi_identifiers : list pystr) (generalization_levels : gmap pystr Z)
  : result row :=
  let generalized_record := record in
  rfold (λ generalized_record field,
           generalize_field record generalized_record
                            generalization_levels field)
        quasi_identifiers generalized_record.

(** *** Equivalence classes *)

Definition class_key (quasi_identifiers : list pystr) (r : row)
  : list pystr :=
  map (λ qi, match r !! qi with
             | Some v => py_str v
             | None => u8 ""
             end) quasi_identifiers.

(** [equivalence_classes[key].append(record)] *)
Fixpoint class_append (key : list pystr) (r : row) (cs : classes)
  : classes :=
  match cs with
  | [] => [(key, [r])]
  | (key', members) :: rest =>
    if bool_decide (key' = key) then (key', members ++ [r]) :: rest
    else (key', members) :: class_append key r rest
  end.

Definition build_equivalence_classes (data : list row)
  (quasi_identifiers : list pystr) : classes :=
  foldl (λ cs r, class_append (class_key quasi_identifiers r) r cs) [] data.

Definition class_sizes (cs : classes) : list Z :=
  map (λ c, Z.of_nat (length c.2)) cs.

Definition min_list_Z (x : Z) (l : list Z) : Z := foldl Z.min x l.
Definition max_list_Z (x : Z) (l : list Z) : Z := foldl Z.max x l.

Definition validate_k_anonymity (equivalence_classes : classes)
  : bool * Z * Z :=
  match class_sizes equivalence_classes with
  | [] => (false, 0, 0)
  | size :: sizes =>
    let min_class_size := min_list_Z size sizes in
    let violated_classes :=
      Z.of_nat (length (filter (λ s, s < k) (size :: sizes))) in
    let is_k_anonymous := k <=? min_class_size in
    (is_k_anonymous, min_class_size, violated_classes)
  end.

(** [{k: min(v + 1, 3) for k, v in generalization_levels.items()}] *)
Definition enhance_levels (generalization_levels : gmap pystr Z)
  : gmap pystr Z :=
  (λ v, Z.min (v + 1) 3) <$> generalization_levels.

(** Suppression of the quasi-identifiers of one record. *)
Definition suppress_record (quasi_identifiers : list pystr) (r : row)
  : row :=
  foldl (λ suppressed_record qi,
           match suppressed_record !! qi with
           | Some v =>
             <[qi := VStr (suppress_enterprise_info v)]> suppressed_record
           | None => suppressed_record
           end) r quasi_identifiers.

Definition handle_small_classes (data : list row)
  (equivalence_classes : classes) (quasi_identifiers : list pystr)
  (generalization_levels : gmap pystr Z) : result (list row) :=
  let valid_classes :=
    filter (λ c, k ≤ Z.of_nat (length c.2)) equivalence_classes in
  let invalid_classes :=
    filter (λ c, Z.of_nat (length c.2) < k) equivalence_classes in
  let result := concat (map snd valid_classes) in
  let invalid_records := concat (map snd invalid_classes) in
  match invalid_records with
  | [] => Ok result
  | _ =>
    if k <=? Z.of_nat (length invalid_records) then
      let enhanced_levels := enhance_levels generalization_levels in
      let? re_generalized :=
        rmap (λ r, apply_generalization r quasi_identifiers enhanced_levels)
             invalid_records in
      Ok (result ++ re_generalized)
    else
      Ok (result ++ map (suppress_record quasi_identifiers) invalid_records)
  end.

(** *** Information loss *)

(** The floats [float(row[qi])] of the rows where the field is present
    and not [None]. *)
Definition numeric_column (data : list row) (qi : pystr)
  : result (list float64) :=
  let? values :=
    rmap py_float
         (omap (λ r : row, match r !! qi with
                           | Some VNone | None => None
                           | Some v => Some v
                           end) data) in
  Ok (map float_of_Q values).

Definition _get_global_ranges (data : list row)
  (quasi_identifiers : list pystr) : result (gmap pystr float64) :=
  rfold (λ ranges qi,
           match numeric_column data qi with
           | Ok [] => Ok ranges
           | Ok (v :: values) =>
             let max_val := max_list_f64 v values in
             let min_val := min_list_f64 v values in
             Ok (<[qi := if f64_lt f64_zero (f64_sub max_val min_val)
                         then f64_sub max_val min_val
                         else f64_one]> ranges)
           | Raise ValueError | Raise TypeError => Ok ranges
           | Raise e => Raise e
           end) quasi_identifiers ∅.

(** The longest prefix of digits, as digit values, and the rest. *)
Fixpoint take_digits (s : pystr) : list N * pystr :=
  match s with
  | [] => ([], [])
  | c :: r =>
    match digit_val c with
    | Some d => let '(ds, rest) := take_digits r in (d :: ds, rest)
    | None => ([], s)
    end
  end.

Definition digits_value (ds : list N) : Z :=
  foldl (λ acc d, acc * 10 + Z.of_N d) 0 ds.

(** A match of one group of the pattern at the start of [s]: one or
    more digits, an optional point, any number of digits. The result is
    the decimal value of the group and the rest of the string. *)
Definition match_number (s : pystr) : option (Q * pystr) :=
  match take_digits s with
  | ([], _) => None
  | (whole, rest) =>
    match rest with
    | 46%N :: rest' =>
      let '(frac, rest'') := take_digits rest' in
      Some ((inject_Z (digits_value whole)
             + inject_Z (digits_value frac)
               / inject_Z (10 ^ Z.of_nat (length frac)))%Q, rest'')
    | _ => Some (inject_Z (digits_value whole), rest)
    end
  end.

(** [re.match] of the interval pattern of [_parse_interval_width]: an
    optional opening bracket, a number, white space, a hyphen or a tilde,
    white space, a number (the optional closing bracket consumes nothing
    that is used). The result is the decimal values of the two groups.
    Every choice of the greedy match is forced: a shorter first group
    would be followed by a digit or a point, which neither the white
    space nor the separator accepts. *)
Definition match_interval (s : pystr) : option (Q * Q) :=
  let s1 := match s with
            | 91%N :: r => r
            | _ => s
            end in
  match match_number s1 with
  | None => None
  | Some (low, s2) =>
    match lstrip s2 with
    | c :: s3 =>
      if ((c =? 45) || (c =? 126))%N then
        match match_number (lstrip s3) with
        | Some (high, _) => Some (low, high)
        | None => None
        end
      else None
    | [] => None
    end
  end.

(** Both groups are converted by [float]. *)
Definition _parse_interval_width (val_str : pystr) : float64 :=
  match match_interval val_str with
  | Some (low, high) => f64_abs (f64_sub (float_of_Q high) (float_of_Q low))
  | None => f64_zero
  end.

Definition suppression_marks : list pystr :=
  map u8 ["*"; "?"; "N/A"; "nan"; "None"; ""]%string.

(** Case D of the loop body: the share of mask characters, a true
    division of two ints. *)
Definition mask_loss (anon_val : pystr) : float64 :=
  let stars_count := str_count star anon_val in
  if (0 <? stars_count)%nat
  then float_of_Q (inject_Z (Z.of_nat stars_count)
                   / inject_Z (Z.of_nat (length anon_val)))
  else f64_one.

(** The loss of one cell in [compute_information_loss]: nothing is
    added to [total_loss] for a cell whose two strings are equal, the
    loss 0, and this float is added for every other cell. *)
Definition cell_loss (global_ranges : gmap pystr float64) (qi : pystr)
  (orig anon : value) : float64 :=
  let orig_val := py_str orig in
  let anon_val := py_str anon in
  if bool_decide (orig_val = anon_val) then f64_zero
  else if bool_decide (anon_val ∈ suppression_marks) then f64_one
  else
    match global_ranges !! qi with
    | Some range =>
      let interval_width := _parse_interval_width anon_val in
      if f64_lt f64_zero interval_width
      then min_f64 (f64_div interval_width range) f64_one
      else mask_loss anon_val
    | None => mask_loss anon_val
    end.

(** The body of the inner loop for one pair of records and one
    quasi-identifier, on [total_loss] and [total_cells]. *)
Definition loss_step (global_ranges : gmap pystr float64) (p : row * row)
  (acc : float64 * Z) (qi : pystr) : float64 * Z :=
  let '(total_loss, total_cells) := acc in
  match p.1 !! qi, p.2 !! qi with
  | Some orig, Some anon =>
    (if bool_decide (py_str orig = py_str anon) then total_loss
     else f64_add total_loss (cell_loss global_ranges qi orig anon),
     total_cells + 1)
  | _, _ => acc
  end.

(** The two nested loops: the total loss and the number of cells. *)
Definition accumulate_loss (global_ranges : gmap pystr float64)
  (quasi_identifiers : list pystr) (pairs : list (row * row))
  : float64 * Z :=
  foldl (λ acc p, foldl (loss_step global_ranges p) acc quasi_identifiers)
        (f64_zero, 0) pairs.

Definition compute_information_loss (original_data anonymized_data : list row)
  (quasi_identifiers : list pystr) : result float64 :=
  match original_data, anonymized_data with
  | [], _ | _, [] => Ok f64_zero
  | _, _ =>
    let? global_ranges :=
      _get_global_ranges original_data quasi_identifiers in
    let '(total_loss, total_cells) :=
      accumulate_loss global_ranges quasi_identifiers
                      (zip original_data anonymized_data) in
    if 0 <? total_cells
    then Ok (f64_div total_loss (float_of_Q (inject_Z total_cells)))
    else Ok f64_zero
  end.

(** *** The enforcer *)

Record anonymize_stats := {
  original_records : Z;
  anonymized_records : Z;
  equivalence_classes : Z;
  min_class_size : Z;
  max_class_size : Z;
  avg_class_size : Q;
  k_value : Z;
  is_k_anonymous : bool;
  violated_classes : Z;
  information_loss : float64;
  iterations : Z;
  final_generalization_levels : gmap pystr Z
}.

(** The second component of the result of [anonymize]: the statistics,
    or the dictionary holding only an ["error"] message. *)
Inductive report :=
| ErrorReport (msg : pystr)
| Stats (s : anonymize_stats).

(** The [while] loop of [anonymize], [n] rounds being left. The result
    is [anonymized_data], [iteration] and [generalization_levels] when
    the loop is left. *)
Fixpoint anonymize_loop (n : nat) (iteration : Z)
  (quasi_identifiers : list pystr) (anonymized_data : list row)
  (generalization_levels : gmap pystr Z)
  : result (list row * Z * gmap pystr Z) :=
  match n with
  | O => Ok (anonymized_data, iteration, generalization_levels)
  | S n' =>
    let? current_anonymized :=
      rmap (λ r, apply_generalization r quasi_identifiers
                                      generalization_levels)
           anonymized_data in
    let eq_classes :=
      build_equivalence_classes current_anonymized quasi_identifiers in
    let '(is_k_anon, min_size, violated) :=
      validate_k_anonymity eq_classes in
    if is_k_anon
    then Ok (current_anonymized, iteration, generalization_levels)
    else
      let? anonymized_data :=
        handle_small_classes current_anonymized eq_classes
                             quasi_identifiers generalization_levels in
      anonymize_loop n' (iteration + 1) quasi_identifiers anonymized_data
                     (enhance_levels generalization_levels)
  end.

Definition anonymize (data : list row) (quasi_identifiers : list pystr)
  (sensitive_attributes : option (list pystr))
  (generalization_levels : option (gmap pystr Z)) (max_iterations : Z)
  : result (list row * report) :=
  match data with
  | [] => Ok ([], ErrorReport (u8 "No data provided"))
  | first :: _ =>
    let generalization_levels :=
      match generalization_levels with
      | Some levels =>
        if bool_decide (levels = ∅)
        then list_to_map (map (λ qi, (qi, 1)) quasi_identifiers)
        else levels
      | None => list_to_map (map (λ qi, (qi, 1)) quasi_identifiers)
      end in
    match filter (λ qi, first !! qi = None) quasi_identifiers with
    | qi :: _ =>
      Ok ([], ErrorReport (u8 "Quasi-identifier '" ++ qi
                           ++ u8 "' not found in data"))
    | [] =>
      let? '(anonymized_data, iteration, generalization_levels) :=
        anonymize_loop (Z.to_nat max_iterations) 0 quasi_identifiers
                       data generalization_levels in
      let final_eq_classes :=
        build_equivalence_classes anonymized_data quasi_identifiers in
      let '(is_k_anon, min_size, violated) :=
        validate_k_anonymity final_eq_classes in
      let? info_loss :=
        compute_information_loss data anonymized_data quasi_identifiers in
      let sizes := class_sizes final_eq_classes in
      Ok (anonymized_data, Stats {|
        original_records := Z.of_nat (length data);
        anonymized_records := Z.of_nat (length anonymized_data);
        equivalence_classes := Z.of_nat (length final_eq_classes);
        min_class_size := min_size;
        max_class_size := match sizes with
                          | [] => 0
                          | s :: ss => max_list_Z s ss
                          end;
        avg_class_size := match sizes with
                          | [] => 0%Q
                          | _ => mean_Q (map inject_Z sizes)
                          end;
        k_value := k;
        is_k_anonymous := is_k_anon;
        violated_classes := violated;
        information_loss := info_loss;
        iterations := iteration + 1;
        final_generalization_levels := generalization_levels
      |})
    end
  end.

End KAnonymityService.

(** ** The differential-privacy service *)

(** The numeric library functions the service calls, taken as given.
    [np_random_laplace n scale] is the value of the [n]-th draw of the
    process when it is [np.random.laplace(0, scale)], and likewise for
    [np_random_normal]: a property proved for every instance of this
    class holds for every realized sequence of draws. *)
Class NoiseRuntime := {
  np_random_laplace : nat → Q → Q;
  np_random_normal : nat → Q → Q;
  (** [math.sqrt] and [np.sqrt] on a non-negative argument *)
  math_sqrt : Q → Q;
  (** [math.log] on a positive argument *)
  math_log : Q → Q;
  (** [np.mean] of a list that is not empty *)
  np_mean : list Q → Q;
  (** [round(x, 4)] of a NumPy float, which NumPy rounds by scaling, not
      as Python rounds its own floats *)
  np_round4 : Q → Q
}.

(** The attributes of a [DifferentialPrivacyService] instance. *)
Record DifferentialPrivacyService := {
  epsilon : Q;
  delta : Q;
  field_bounds : gmap pystr (Q * Q);
  field_sensitivity : gmap pystr Q
}.

(** [self.epsilon] and [self.delta], where a parameter of the method
    has the name of the attribute. *)
Definition self_epsilon (s : DifferentialPrivacyService) : Q := epsilon s.
Definition self_delta (s : DifferentialPrivacyService) : Q := delta s.

(** The state a call runs in and leaves behind: the instance and the
    number of draws made so far from the random generator. *)
Record world := {
  self : DifferentialPrivacyService;
  draws : nat
}.

(** [DifferentialPrivacyService(epsilon, delta)] *)
Definition __init__ (epsilon delta : Q) : DifferentialPrivacyService := {|
  epsilon := epsilon;
  delta := delta;
  field_bounds :=
    {[ u8 "revenue_2023" := (0, 1000)%Q;
       u8 "domestic_market_share" := (0, 100)%Q;
       u8 "r_and_d_ratio" := (0, 30)%Q ]};
  field_sensitivity :=
    {[ u8 "revenue_2023" := 1000%Q;
       u8 "domestic_market_share" := 100%Q;
       u8 "r_and_d_ratio" := 30%Q ]}
|}.

(** A method call: it ends in a value or in an exception, and in both
    cases leaves a state behind. *)
Definition M (A : Type) : Type := world → result A * world.

Definition ret {A} (a : A) : M A := λ w, (Ok a, w).
Definition raise {A} (e : pyerror) : M A := λ w, (Raise e, w).
Definition lift {A} (r : result A) : M A := λ w, (r, w).
Definition bind {A B} (m : M A) (f : A → M B) : M B :=
  λ w, match m w with
       | (Ok a, w') => f a w'
       | (Raise e, w') => (Raise e, w')
       end.
Definition get_self : M DifferentialPrivacyService := λ w, (Ok (self w), w).
Definition set_self (s : DifferentialPrivacyService) : M unit :=
  λ w, (Ok tt, {| self := s; draws := draws w |}).

Notation "'let!' x ':=' m 'in' k" := (bind m (λ x, k))
  (at level 10, x name, m at level 100, k at level 200).
Notation "'let!' ' p ':=' m 'in' k" := (bind m (λ 'p, k))
  (at level 10, p strict pattern, m at level 100, k at level 200).

(** [for x in l: acc = f(acc, x)] *)
Fixpoint mfold {A B} (f : B → A → M B) (l : list A) (acc : B) : M B :=
  match l with
  | [] => ret acc
  | x :: r => let! acc' := f acc x in mfold f r acc'
  end.

(** [a or b] for an optional float [a]: [None] and zero give [b]. *)
Definition or_default (a : option Q) (b : Q) : Q :=
  match a with
  | Some x => if Qeq_bool x 0 then b else x
  | None => b
  end.

(** [l[i]] with Python's negative indices. *)
Definition py_index {A} (l : list A) (i : Z) : result A :=
  let n := Z.of_nat (length l) in
  let j := if i <? 0 then i + n else i in
  if (j <? 0) || (n <=? j) then Raise IndexError
  else match l !! Z.to_nat j with
       | Some x => Ok x
       | None => Raise IndexError
       end.

Section DifferentialPrivacy.

Context `{PyRuntime} `{NoiseRuntime}.

(** [np.random.laplace(0, scale)]: a [ValueError] on a negative scale. *)
Definition draw_laplace (scale : Q) : M Q :=
  λ w, if qlt scale 0 then (Raise ValueError, w)
       else (Ok (np_random_laplace (draws w) scale),
             {| self := self w; draws := S (draws w) |}).

(** [np.random.normal(0, sigma)] *)
Definition draw_normal (sigma : Q) : M Q :=
  λ w, if qlt sigma 0 then (Raise ValueError, w)
       else (Ok (np_random_normal (draws w) sigma),
             {| self := self w; draws := S (draws w) |}).

(** [a / b] on floats *)
Definition py_div (a b : Q) : result Q :=
  if Qeq_bool b 0 then Raise ZeroDivisionError else Ok (a / b)%Q.

Definition py_math_log (x : Q) : result Q :=
  if qle x 0 then Raise ValueError else Ok (math_log x).

Definition py_math_sqrt (x : Q) : result Q :=
  if qlt x 0 then Raise ValueError else Ok (math_sqrt x).

Definition laplace_mechanism (true_value sensitivity : Q)
  (epsilon : option Q) : M Q :=
  let! s := get_self in
  let epsilon := or_default epsilon (self_epsilon s) in
  let! scale := lift (py_div sensitivity epsilon) in
  let! noise := draw_laplace scale in
  ret (true_value + noise)%Q.

Definition gaussian_mechanism (true_value sensitivity : Q)
  (epsilon delta : option Q) : M Q :=
  let! s := get_self in
  let epsilon := or_default epsilon (self_epsilon s) in
  let delta := or_default delta (self_delta s) in
  let! ratio := lift (py_div (125 # 100) delta) in
  let! ln := lift (py_math_log ratio) in
  let! root := lift (py_math_sqrt (2 * ln)) in
  let! sigma := lift (py_div (sensitivity * root) epsilon) in
  let! noise := draw_normal sigma in
  ret (true_value + noise)%Q.

(** [max(min_val, min(max_val, x))] *)
Definition clip (bounds : Q * Q) (x : Q) : Q :=
  let '(min_val, max_val) := bounds in
  py_max min_val (py_min max_val x).

Definition add_noise_to_field (value : option Q) (field_name : pystr)
  (mechanism : pystr) : M (option Q) :=
  match value with
  | None => ret None
  | Some value =>
    let! s := get_self in
    let sensitivity :=
      default 1%Q (field_sensitivity s !! field_name) in
    let! noisy_value :=
      if bool_decide (mechanism = u8 "laplace")
      then laplace_mechanism value sensitivity None
      else if bool_decide (mechanism = u8 "gaussian")
      then gaussian_mechanism value sensitivity None None
      else raise ValueError in
    let! s := get_self in
    match field_bounds s !! field_name with
    | Some bounds => ret (Some (clip bounds noisy_value))
    | None => ret (Some noisy_value)
    end
  end.

(** One entry of [field_changes]. *)
Record change := {
  original : Q;
  noisy : Q;
  difference : Q
}.

Record field_metric := {
  mae : Q;
  rmse : Q;
  relative_error : Q;
  max_difference : Q;
  min_difference : Q;
  sensitivity : Q
}.

Record privatize_stats := {
  stats_epsilon : Q;
  stats_mechanism : pystr;
  field_metrics : gmap pystr field_metric
}.

Inductive privatize_report :=
| PrivatizeError (msg : pystr)
| PrivatizeStats (s : privatize_stats).

Definition _compute_statistics (s : DifferentialPrivacyService)
  (field_changes : gmap pystr (list change)) (mechanism : pystr)
  : privatize_stats :=
  {| stats_epsilon := self_epsilon s;
     stats_mechanism := mechanism;
     field_metrics :=
       map_imap (λ field changes,
         match map difference changes with
         | [] => None
         | d :: ds =>
           let differences := d :: ds in
           let mae := np_mean differences in
           let mse := np_mean (map (λ d, d * d)%Q differences) in
           let rmse := math_sqrt mse in
           let relative_errors :=
             omap (λ c, if Qeq_bool (original c) 0 then None
                        else Some (Qabs ((noisy c - original c)
                                         / original c)))
                  changes in
           Some {| mae := np_round4 mae;
                   rmse := np_round4 rmse;
                   relative_error :=
                     match relative_errors with
                     | [] => 0%Q
                     | _ => np_round4 (np_mean relative_errors)
                     end;
                   max_difference := round4 (max_list_Q d ds);
                   min_difference := round4 (min_list_Q d ds);
                   sensitivity :=
                     default 1%Q (field_sensitivity s !! field) |}
         end) field_changes |}.

(** The update of the instance by [custom_bounds]. *)
Definition update_bounds (custom_bounds : gmap pystr (Q * Q))
  (s : DifferentialPrivacyService) : DifferentialPrivacyService :=
  {| epsilon := self_epsilon s;
     delta := self_delta s;
     field_bounds := custom_bounds ∪ field_bounds s;
     field_sensitivity :=
       map_fold (λ field (b : Q * Q) sens,
                   <[field := (b.2 - b.1)%Q]> sens)
                (field_sensitivity s) custom_bounds |}.

(** The body of the inner loop of [privatize_enterprise_data]. *)
Definition privatize_field (record : row) (mechanism : pystr)
  (acc : row * gmap pystr (list change)) (field : pystr)
  : M (row * gmap pystr (list change)) :=
  let '(private_record, field_changes) := acc in
  match record !! field with
  | None | Some VNone => ret acc
  | Some v =>
    let! original_value := lift (py_float v) in
    let! noisy_value :=
      add_noise_to_field (Some original_value) field mechanism in
    match noisy_value with
    | None => raise TypeError
    | Some noisy_value =>
      ret (<[field := VFloat noisy_value]> private_record,
           <[field := default [] (field_changes !! field)
                      ++ [{| original := original_value;
                             noisy := noisy_value;
                             difference :=
                               Qabs (noisy_value - original_value) |}]]>
             field_changes)
    end
  end.

Definition privatize_enterprise_data (data : list row)
  (numeric_fields : list pystr) (mechanism : pystr)
  (custom_bounds : option (gmap pystr (Q * Q)))
  : M (list row * privatize_report) :=
  match data with
  | [] => ret ([], PrivatizeError (u8 "No data provided"))
  | _ =>
    let! _ :=
      match custom_bounds with
      | Some cb =>
        if bool_decide (cb = ∅) then ret tt
        else let! s := get_self in set_self (update_bounds cb s)
      | None => ret tt
      end in
    let field_changes : gmap pystr (list change) :=
      list_to_map (map (λ field, (field, [])) numeric_fields) in
    let! '(privatized_data, field_changes) :=
      mfold (λ '(privatized_data, field_changes) record,
               let! '(private_record, field_changes) :=
                 mfold (privatize_field record mechanism) numeric_fields
                       (record, field_changes) in
               ret (privatized_data ++ [private_record], field_changes))
            data ([], field_changes) in
    let! s := get_self in
    ret (privatized_data,
         PrivatizeStats (_compute_statistics s field_changes mechanism))
  end.

(** *** Statistical queries *)

(** [[record for record in data if all(record.get(k) == v ...)]], or
    [data] itself when there is no filter condition. *)
Definition apply_filter (data : list row)
  (filter_condition : option (gmap pystr value)) : list row :=
  match filter_condition with
  | Some fc =>
    if bool_decide (fc = ∅) then data
    else filter (λ record : row,
                   map_Forall (λ k v,
                     py_eq (default VNone (record !! k)) v = true) fc)
                data
  | None => data
  end.

(** [[float(record[field]) for record in data
      if field in record and record[field] is not None]] *)
Definition field_values (data : list row) (field : pystr)
  : result (list Q) :=
  rmap py_float
       (omap (λ r : row, match r !! field with
                         | Some VNone | None => None
                         | Some v => Some v
                         end) data).

(** The branch on [mechanism] of the queries. *)
Definition query_noise (mechanism : pystr) (true_value sensitivity : Q)
  : M Q :=
  if bool_decide (mechanism = u8 "laplace")
  then laplace_mechanism true_value sensitivity None
  else gaussian_mechanism true_value sensitivity None None.

Record count_info := {
  count_true_count : Z;
  count_noisy_count : Z;
  count_noise : Z;
  count_mechanism : pystr;
  count_epsilon : Q
}.

Definition query_count (data : list row)
  (filter_condition : option (gmap pystr value)) (mechanism : pystr)
  : M (Z * count_info) :=
  let filtered_data := apply_filter data filter_condition in
  let true_count := Z.of_nat (length filtered_data) in
  let sensitivity := 1%Q in
  let! noisy_count := query_noise mechanism (inject_Z true_count)
                                  sensitivity in
  let noisy_count := Z.max 0 (py_round noisy_count) in
  let! s := get_self in
  ret (noisy_count,
       {| count_true_count := true_count;
          count_noisy_count := noisy_count;
          count_noise := noisy_count - true_count;
          count_mechanism := mechanism;
          count_epsilon := self_epsilon s |}).

(** The diagnostics of [query_sum] and of [query_average]: the field,
    the rounded true and noisy values, and the rest. *)
Record value_info := {
  info_field : pystr;
  info_true : Q;
  info_noisy : Q;
  info_count : Z;
  info_mechanism : pystr;
  info_epsilon : Q;
  info_sensitivity : Q
}.

Inductive query_info (A : Type) :=
| QueryError (msg : pystr)
| QueryInfo (i : A).
#[global] Arguments QueryError {A} msg.
#[global] Arguments QueryInfo {A} i.

Definition query_sum (data : list row) (field : pystr)
  (filter_condition : option (gmap pystr value)) (mechanism : pystr)
  : M (Q * query_info value_info) :=
  let filtered_data := apply_filter data filter_condition in
  let! values := lift (field_values filtered_data field) in
  match values with
  | [] => ret (0%Q, QueryError (u8 "No valid data"))
  | v :: vs =>
    let true_sum := sum_Q values in
    let! s := get_self in
    let sensitivity :=
      default (max_list_Q v vs - min_list_Q v vs)%Q
              (field_sensitivity s !! field) in
    let! noisy_sum := query_noise mechanism true_sum sensitivity in
    let! s := get_self in
    ret (noisy_sum,
         QueryInfo {| info_field := field;
                      info_true := round4 true_sum;
                      info_noisy := round4 noisy_sum;
                      info_count := Z.of_nat (length values);
                      info_mechanism := mechanism;
                      info_epsilon := self_epsilon s;
                      info_sensitivity := sensitivity |})
  end.

Definition query_average (data : list row) (field : pystr)
  (filter_condition : option (gmap pystr value)) (mechanism : pystr)
  : M (Q * query_info value_info) :=
  let filtered_data := apply_filter data filter_condition in
  let! values := lift (field_values filtered_data field) in
  match values with
  | [] => ret (0%Q, QueryError (u8 "No valid data"))
  | v :: vs =>
    let true_avg := mean_Q values in
    let count := Z.of_nat (length values) in
    let! s := get_self in
    let field_range :=
      default (max_list_Q v vs - min_list_Q v vs)%Q
              (field_sensitivity s !! field) in
    let sensitivity := (field_range / inject_Z count)%Q in
    let! noisy_avg := query_noise mechanism true_avg sensitivity in
    let! s := get_self in
    let noisy_avg :=
      match field_bounds s !! field with
      | Some bounds => clip bounds noisy_avg
      | None => noisy_avg
      end in
    ret (noisy_avg,
         QueryInfo {| info_field := field;
                      info_true := round4 true_avg;
                      info_noisy := round4 noisy_avg;
                      info_count := count;
                      info_mechanism := mechanism;
                      info_epsilon := self_epsilon s;
                      info_sensitivity := sensitivity |})
  end.

(** [d[key] = v] on a dictionary with float keys, kept in insertion
    order. *)
Fixpoint dict_set (key v : Q) (d : list (Q * Q)) : list (Q * Q) :=
  match d with
  | [] => [(key, v)]
  | (key', v') :: rest =>
    if Qeq_bool key' key then (key', v) :: rest
    else (key', v') :: dict_set key v rest
  end.

Record percentile_info := {
  pct_field : pystr;
  pct_percentiles : list Q;
  pct_count : Z;
  pct_mechanism : pystr;
  pct_epsilon : Q
}.

Definition query_percentile (data : list row) (field : pystr)
  (percentiles : list Q) (mechanism : pystr)
  : M (list (Q * Q) * query_info percentile_info) :=
  let! values := lift (field_values data field) in
  match values with
  | [] => ret ([], QueryError (u8 "No valid data"))
  | v :: vs =>
    let n := Z.of_nat (length values) in
    let values := merge_sort Qle values in
    let! true_percentiles :=
      lift (rfold (λ true_percentiles p,
                     let idx := py_int (inject_Z n * p / 100)%Q in
                     let idx := Z.min idx (n - 1) in
                     let? x := py_index values idx in
                     Ok (dict_set p x true_percentiles))
                  percentiles []) in
    let! s := get_self in
    let sensitivity :=
      default (max_list_Q v vs - min_list_Q v vs)%Q
              (field_sensitivity s !! field) in
    let! noisy_percentiles :=
      mfold (λ noisy_percentiles '(p, value),
               let! noisy_value := query_noise mechanism value sensitivity in
               let! s := get_self in
               let noisy_value :=
                 match field_bounds s !! field with
                 | Some bounds => clip bounds noisy_value
                 | None => noisy_value
                 end in
               ret (dict_set p (round4 noisy_value) noisy_percentiles))
            true_percentiles [] in
    let! s := get_self in
    ret (noisy_percentiles,
         QueryInfo {| pct_field := field;
                      pct_percentiles := percentiles;
                      pct_count := n;
                      pct_mechanism := mechanism;
                      pct_epsilon := self_epsilon s |})
  end.

End DifferentialPrivacy.

(** ** The risk report of the k-anonymity service *)

Record high_risk_class := {
  risk_class_key : list pystr;
  risk_size : Z;
  risk_sensitive_diversity : Z
}.

Record risk_report := {
  total_classes : Z;
  classes_with_unique_sensitive : Z;
  min_sensitive_diversity : bound;
  avg_sensitive_diversity : Q;
  high_risk_classes : list high_risk_class;
  risk_level : pystr
}.

Section PrivacyRisk.

Context `{PyRuntime}.

(** The set [sensitive_values] of one class: the strings of the values
    of the attribute that are present and not [None]. *)
Definition sensitive_values (sensitive_attribute : pystr)
  (records : list row) : gset pystr :=
  foldl (λ (sensitive_values : gset pystr) (record : row),
           match record !! sensitive_attribute with
           | Some VNone | None => sensitive_values
           | Some val => sensitive_values ∪ {[ py_str val ]}
           end) ∅ records.

(** The body of the loop of [evaluate_privacy_risk] for one class, on
    the counter, the list of high-risk classes and [diversity_scores]. *)
Definition risk_step (sensitive_attribute : pystr)
  (acc : Z * list high_risk_class * list Z) (c : list pystr * list row)
  : Z * list high_risk_class * list Z :=
  let '(unique, high_risk, diversity_scores) := acc in
  let diversity :=
    Z.of_nat (size (sensitive_values sensitive_attribute c.2)) in
  if diversity =? 1
  then (unique + 1,
        high_risk ++ [{| risk_class_key := c.1;
                         risk_size := Z.of_nat (length c.2);
                         risk_sensitive_diversity := diversity |}],
        diversity_scores ++ [diversity])
  else (unique, high_risk, diversity_scores ++ [diversity]).

Definition evaluate_privacy_risk (equivalence_classes : classes)
  (sensitive_attribute : pystr) : risk_report :=
  let '(unique, high_risk, diversity_scores) :=
    foldl (risk_step sensitive_attribute) (0, [], []) equivalence_classes in
  let n := Z.of_nat (length equivalence_classes) in
  {| total_classes := n;
     classes_with_unique_sensitive := unique;
     min_sensitive_diversity :=
       match diversity_scores with
       | [] => Inf
       | s :: ss => Fin (inject_Z (min_list_Z s ss))
       end;
     avg_sensitive_diversity :=
       match diversity_scores with
       | [] => 0%Q
       | _ => mean_Q (map inject_Z diversity_scores)
       end;
     high_risk_classes := high_risk;
     risk_level :=
       if unique =? 0 then u8 "低风险"
       else if qlt (inject_Z unique) (inject_Z n * (3 # 10))
       then u8 "中风险"
       else u8 "高风险" |}.

End PrivacyRisk.

(** ** The histogram query *)

(** A [dict] keyed by values, in insertion order; keys are compared
    with [==]. *)
Fixpoint vdict_get {A} (key : value) (d : list (value * A)) : option A :=
  match d with
  | [] => None
  | (key', v) :: rest =>
    if py_eq key' key then Some v else vdict_get key rest
  end.

Fixpoint vdict_set {A} (key : value) (v : A) (d : list (value * A))
  : list (value * A) :=
  match d with
  | [] => [(key, v)]
  | (key', v') :: rest =>
    if py_eq key' key then (key', v) :: rest
    else (key', v') :: vdict_set key v rest
  end.

(** The elements of [set(values)], each value once, the first of the
    equal ones. *)
Definition py_set (values : list value) : list value :=
  foldl (λ seen v, if existsb (λ x, py_eq x v) seen then seen
                   else seen ++ [v]) [] values.

Definition is_number (v : value) : bool :=
  match v with
  | VInt _ | VFloat _ => true
  | _ => false
  end.

Definition is_string (v : value) : bool :=
  match v with
  | VStr _ => true
  | _ => false
  end.

Definition number_of (v : value) : Q :=
  match v with
  | VInt z => inject_Z z
  | VFloat q => q
  | _ => 0%Q
  end.

(** [a <= b] on strings: the order of the code points. *)
Fixpoint str_le (a b : pystr) : bool :=
  match a, b with
  | [], _ => true
  | _ :: _, [] => false
  | x :: a', y :: b' =>
    if (x <? y)%N then true
    else if (y <? x)%N then false
    else str_le a' b'
  end.

(** [a <= b] on two numbers or on two strings. *)
Definition value_le (a b : value) : bool :=
  match a, b with
  | VStr s, VStr t => str_le s t
  | _, _ => qle (number_of a) (number_of b)
  end.

(** [sorted(l)] for a list without equal elements: numbers are ordered
    among themselves, strings among themselves, and every other
    comparison that a sort of two or more elements has to make raises
    [TypeError]. *)
Definition py_sorted (l : list value) : result (list value) :=
  if forallb is_number l || forallb is_string l
  then Ok (merge_sort (λ a b, value_le a b) l)
  else match l with
       | [] | [_] => Ok l
       | _ => Raise TypeError
       end.

Record histogram_info := {
  hist_field : pystr;
  hist_bins : Z;
  hist_total_count : Z;
  hist_mechanism : pystr;
  hist_epsilon : Q
}.

Section Histogram.

Context `{NoiseRuntime}.

(** [[record[field] for record in data
      if field in record and record[field] is not None]] *)
Definition raw_values (data : list row) (field : pystr) : list value :=
  omap (λ r : row, match r !! field with
                   | Some VNone | None => None
                   | Some v => Some v
                   end) data.

(** [{bin_val: 0 for bin_val in bins}], then one count for each value
    that is a key. *)
Definition true_histogram (bins values : list value) : list (value * Z) :=
  foldl (λ d v, match vdict_get v d with
                | Some count => vdict_set v (count + 1) d
                | None => d
                end)
        (foldl (λ d bin_val, vdict_set bin_val 0 d) [] bins)
        values.

Definition query_histogram (data : list row) (field : pystr)
  (bins : option (list value)) (mechanism : pystr)
  : M (list (value * Z) * query_info histogram_info) :=
  let values := raw_values data field in
  match values with
  | [] => ret ([], QueryError (u8 "No valid data"))
  | _ =>
    let! bins :=
      match bins with
      | None => lift (py_sorted (py_set values))
      | Some bins => ret bins
      end in
    let true_histogram := true_histogram bins values in
    let sensitivity := 1%Q in
    let! noisy_histogram :=
      mfold (λ noisy_histogram '(bin_val, count),
               let! noisy_count :=
                 query_noise mechanism (inject_Z count) sensitivity in
               let noisy_count := Z.max 0 (py_round noisy_count) in
               ret (vdict_set bin_val noisy_count noisy_histogram))
            true_histogram [] in
    let! s := get_self in
    ret (noisy_histogram,
         QueryInfo {| hist_field := field;
                      hist_bins := Z.of_nat (length bins);
                      hist_total_count :=
                        foldl Z.add 0 (map snd true_histogram);
                      hist_mechanism := mechanism;
                      hist_epsilon := self_epsilon s |})
  end.

End Histogram.

(** ** Names used in the statements *)

(** The field names for which [apply_generalization] has a dedicated
    routine. *)
Definition dedicated_fields : list pystr :=
  map u8 ["revenue_2023"; "domestic_market_share"; "r_and_d_ratio";
          "chain_stage"; "headquarters"; "sensitivity_level"]%string.

(** A method call that leaves the attributes of the instance as they
    were, whether it returns or raises. *)
Definition keeps_self {A} (m : M A) : Prop :=
  ∀ w, self (m w).2 = self w.

(** [lo <= x <= hi] *)
Definition within (lo hi x : Q) : Prop := (lo <= x ∧ x <= hi)%Q.

(** [generalization_levels or {qi: 1 for qi in quasi_identifiers}]: the
    levels [anonymize] starts from. *)
Definition initial_levels (quasi_identifiers : list pystr)
  (generalization_levels : option (gmap pystr Z)) : gmap pystr Z :=
  match generalization_levels with
  | Some levels =>
    if bool_decide (levels = ∅)
    then list_to_map (map (λ qi, (qi, 1)) quasi_identifiers)
    else levels
  | None => list_to_map (map (λ qi, (qi, 1)) quasi_identifiers)
  end.

(** What [privatize_enterprise_data] makes of one record under the
    attributes [s]: a field outside [numeric_fields], and a field that is
    missing or [None], is as in the record; every other field of
    [numeric_fields] holds a float, which lies within the bounds of the
    field when the table has bounds [(lo, hi)] with [lo <= hi] for it. *)
Definition noised_copy (s : DifferentialPrivacyService)
  (numeric_fields : list pystr) (record private_record : row) : Prop :=
  ∀ field,
    (field ∉ numeric_fields ∨ record !! field = None
     ∨ record !! field = Some VNone →
     private_record !! field = record !! field)
    ∧ (∀ v, field ∈ numeric_fields → record !! field = Some v →
            v ≠ VNone →
            ∃ q, private_record !! field = Some (VFloat q)
                 ∧ ∀ lo hi, field_bounds s !! field = Some (lo, hi) →
                            (lo <= hi)%Q → within lo hi q).

(** ** A runtime for the examples

    The examples below run the services on concrete data. Their runtime
    reads the ASCII digits as decimal digits and parses the plain
    decimal numerals (digits, with an optional point and fraction,
    surrounded by white space); none of the examples converts another
    numeral, and none prints a float. The noise of the examples is the
    constant sequence of draws equal to [-1]; their square root and
    logarithm are the identity, which has the sign of the real functions
    at the arguments the examples reach, the only thing the outcome of a
    mechanism depends on besides the draw; their mean and rounding of
    NumPy floats are the exact ones. *)

Definition ascii_digit (c : N) : option N :=
  if ((48 <=? c) && (c <=? 57))%N then Some (c - 48)%N else None.

Definition digits_runtime : PyRuntime :=
  {| float_parse := λ _, None;
     float_repr := λ _, [];
     digit_val := ascii_digit |}.

Definition plain_decimal (s : pystr) : option Q :=
  match @match_number digits_runtime (strip s) with
  | Some (q, []) => Some q
  | _ => None
  end.

Definition example_runtime : PyRuntime :=
  {| float_parse := plain_decimal;
     float_repr := λ _, [];
     digit_val := ascii_digit |}.

Definition example_noise : NoiseRuntime :=
  {| np_random_laplace := λ _ _, (-1)%Q;
     np_random_normal := λ _ _, (-1)%Q;
     math_sqrt := λ x, x;
     math_log := λ x, x;
     np_mean := mean_Q;
     np_round4 := round4 |}.

(** A fresh instance with the default [epsilon] and [delta], before
    any draw. *)
Definition example_world : world :=
  {| self := __init__ 1 (1 # 100000); draws := 0 |}.

Definition example_ratios : list row :=
  [ {[ u8 "r_and_d_ratio" := VFloat (5 # 100) ]};
    {[ u8 "r_and_d_ratio" := VFloat (12 # 100) ]} ].

(** Bounds for a ratio kept as a fraction, the lower one below the
    fourth decimal. *)
Definition example_bounds : gmap pystr (Q * Q) :=
  {[ u8 "r_and_d_ratio" := (4 # 100000, 3 # 10)%Q ]}.

(** The state that a call with [example_bounds] leaves behind. *)
Definition example_world_after : world :=
  (@privatize_enterprise_data example_runtime example_noise
     example_ratios [u8 "r_and_d_ratio"] (u8 "laplace")
     (Some example_bounds) example_world).2.

(** Two revenues near the two ends of the float range, as ints, and
    the same records with the revenue generalized to an interval. *)
Definition example_extremes : list row :=
  [ {[ u8 "revenue_2023" := VInt (10 ^ 308) ]};
    {[ u8 "revenue_2023" := VInt (- 10 ^ 308) ]} ].

Definition example_intervals : list row :=
  [ {[ u8 "revenue_2023" := VStr (u8 "0-5") ]};
    {[ u8 "revenue_2023" := VStr (u8 "0-5") ]} ].

(** An interval whose upper end has 400 digits. *)
Definition example_wide_intervals : list row :=
  [ {[ u8 "revenue_2023" := VStr (u8 "0-" ++ replicate 400 57%N) ]};
    {[ u8 "revenue_2023" := VStr (u8 "0-" ++ replicate 400 57%N) ]} ].

(** The two revenues and an ordinary one. *)
Definition example_revenues : list row :=
  example_extremes ++ [ {[ u8 "revenue_2023" := VInt 2 ]} ].

(** A revenue beyond the float range. *)
Definition example_beyond : list row :=
  [ {[ u8 "revenue_2023" := VInt (10 ^ 400) ]} ].

Definition example_people : list row :=
  [ {[ u8 "name" := VStr (u8 "abcdef"); u8 "city" := VStr (u8 "Oslo") ]};
    {[ u8 "name" := VStr (u8 "abcxyz"); u8 "city" := VStr (u8 "Oslo") ]} ].

(** * Properties *)

(** ** Inversion of the exception monads *)

Lemma rbind_Ok {A B} (r : result A) (f : A → result B) b :
  rbind r f = Ok b → ∃ a, r = Ok a ∧ f a = Ok b.
Proof. destruct r as [a|e]; simpl; [eauto | discriminate]. Qed.

Lemma bind_Ok {A B} (m : M A) (f : A → M B) w b w' :
  bind m f w = (Ok b, w') →
  ∃ a w1, m w = (Ok a, w1) ∧ f a w1 = (Ok b, w').
Proof.
  unfold bind. destruct (m w) as [[a|e] w1]; [eauto | discriminate].
Qed.

Ltac inv_rbind H :=
  let a := fresh "a" in
  let Ha := fresh "Ha" in
  apply rbind_Ok in H; destruct H as (a & Ha & H).


(** ** K-anonymity of the output of [anonymize] *)

Section KAnonymityInvariant.

Context `{PyRuntime}.
Variable k : Z.

Lemma min_list_Z_le_init (l : list Z) x : min_list_Z x l ≤ x.
Proof.
  unfold min_list_Z. revert x.
  induction l as [|y l IH]; intros x; simpl; [lia|].
  specialize (IH (Z.min x y)). lia.
Qed.

Lemma min_list_Z_lower_bound (l : list Z) x :
  Forall (λ y, min_list_Z x l ≤ y) l.
Proof.
  unfold min_list_Z. revert x.
  induction l as [|y l IH]; intros x; constructor; simpl.
  - pose proof (min_list_Z_le_init l (Z.min x y)) as Hle.
    unfold min_list_Z in Hle. lia.
  - apply IH.
Qed.

(** A positive verdict of [validate_k_anonymity] bounds every class. *)
Lemma validate_k_anonymity_sound (cs : classes) m v :
  validate_k_anonymity k cs = (true, m, v) →
  Forall (λ c, k ≤ Z.of_nat (length c.2)) cs.
Proof.
  unfold validate_k_anonymity.
  destruct (class_sizes cs) as [|size sizes] eqn:Hsizes; [discriminate|].
  intros Hv.
  assert (Hk : (k <=? min_list_Z size sizes) = true) by congruence.
  apply Z.leb_le in Hk.
  assert (Hall : Forall (λ s, k ≤ s) (class_sizes cs)).
  { rewrite Hsizes. constructor.
    - pose proof (min_list_Z_le_init sizes size). lia.
    - eapply Forall_impl; [apply (min_list_Z_lower_bound sizes size)|].
      intros y Hy. simpl in Hy. lia. }
  unfold class_sizes in Hall. rewrite Forall_map in Hall. exact Hall.
Qed.

(** C1. Whenever [anonymize] returns statistics whose [is_k_anonymous]
    is true, every equivalence class built from the returned records on
    the same quasi-identifiers has at least [k] members. *)
Theorem anonymize_k_anonymous_output
  (data : list row) (quasi_identifiers : list pystr)
  (sensitive_attributes : option (list pystr))
  (generalization_levels : option (gmap pystr Z)) (max_iterations : Z)
  (anonymized_data : list row) (stats : anonymize_stats) :
  anonymize k data quasi_identifiers sensitive_attributes
            generalization_levels max_iterations
    = Ok (anonymized_data, Stats stats) →
  is_k_anonymous stats = true →
  Forall (λ c, k ≤ Z.of_nat (length c.2))
         (build_equivalence_classes anonymized_data quasi_identifiers).
Proof.
  unfold anonymize. intros Hrun Hflag.
  destruct data as [|first rest]; [discriminate|].
  destruct (filter _ quasi_identifiers); [|discriminate].
  inv_rbind Hrun. destruct a as [[anon iteration] levels].
  destruct (validate_k_anonymity k (build_equivalence_classes anon _))
    as [[is_k_anon min_size] violated] eqn:Hvalid.
  inv_rbind Hrun. injection Hrun as Hdata Hstats.
  subst anonymized_data stats. simpl in Hflag. subst is_k_anon.
  eapply validate_k_anonymity_sound. exact Hvalid.
Qed.

End KAnonymityInvariant.

(** ** The default generalization of string fields *)

Section DefaultGeneralization.

Context `{PyRuntime}.

Lemma not_dedicated_dispatch (field : pystr) :
  field ∉ dedicated_fields →
  bool_decide (field = u8 "revenue_2023") = false
  ∧ bool_decide (field = u8 "domestic_market_share") = false
  ∧ bool_decide (field = u8 "r_and_d_ratio") = false
  ∧ bool_decide (field = u8 "chain_stage") = false
  ∧ bool_decide (field = u8 "headquarters") = false
  ∧ bool_decide (field = u8 "sensitivity_level") = false.
Proof.
  intros Hnot.
  repeat split; apply bool_decide_eq_false; intros ->; apply Hnot;
    unfold dedicated_fields; simpl; set_solver.
Qed.

(** On a field without a dedicated routine the loop body stores the
    default generalization, if there is one. *)
Lemma generalize_field_default (record acc : row) levels field v :
  field ∉ dedicated_fields →
  record !! field = Some v →
  generalize_field record acc levels field =
    Ok match generalize_default v (default 1 (levels !! field)) with
       | Some g => <[field := g]> acc
       | None => acc
       end.
Proof.
  intros Hnot Hv. unfold generalize_field. rewrite Hv.
  destruct (not_dedicated_dispatch field Hnot)
    as (-> & -> & -> & -> & -> & ->).
  by destruct (generalize_default _ _).
Qed.

(** The loop body for one field leaves the other fields of the copy
    alone. *)
Lemma generalize_field_other (record acc acc' : row) levels field other :
  field ≠ other →
  generalize_field record acc levels field = Ok acc' →
  acc' !! other = acc !! other.
Proof.
  intros Hne. unfold generalize_field.
  destruct (record !! field) as [v|]; [|by intros [= <-]].
  repeat case_bool_decide;
    try (intros Hrun; inv_rbind Hrun; injection Hrun as <-;
         by rewrite lookup_insert_ne);
  destruct (generalize_default _ _); intros [= <-];
    [by rewrite lookup_insert_ne | done].
Qed.

(** Once the copy holds [g] for the field, it holds it to the end:
    every later visit of the field stores [g] again. *)
Lemma apply_generalization_loop (record : row) levels field v g qis :
  field ∉ dedicated_fields →
  record !! field = Some v →
  generalize_default v (default 1 (levels !! field)) = Some g →
  ∀ acc r',
    rfold (λ acc f, generalize_field record acc levels f) qis acc = Ok r' →
    (field ∈ qis ∨ acc !! field = Some g) →
    r' !! field = Some g.
Proof.
  intros Hnot Hv Hg.
  induction qis as [|f qis IH]; intros acc r' Hrun Hin; simpl in Hrun.
  - injection Hrun as <-. destruct Hin as [Hin|Hacc]; [|done].
    by apply elem_of_nil in Hin.
  - inv_rbind Hrun. apply (IH a r' Hrun).
    destruct (decide (f = field)) as [->|Hne].
    + right. rewrite (generalize_field_default record acc levels field v)
        in Ha by done.
      rewrite Hg in Ha. injection Ha as <-. apply lookup_insert_eq.
    + destruct Hin as [Hin|Hacc].
      * left. apply elem_of_cons in Hin as [->|Hin]; [done | exact Hin].
      * right. by rewrite (generalize_field_other _ _ _ _ _ _ Hne Ha).
Qed.

(** A field that the default generalization leaves alone has at the end
    the value it had. *)
Lemma apply_generalization_loop_unchanged (record : row) levels field v qis :
  field ∉ dedicated_fields →
  record !! field = Some v →
  generalize_default v (default 1 (levels !! field)) = None →
  ∀ acc r',
    rfold (λ acc f, generalize_field record acc levels f) qis acc = Ok r' →
    acc !! field = Some v →
    r' !! field = Some v.
Proof.
  intros Hnot Hv Hg.
  induction qis as [|f qis IH]; intros acc r' Hrun Hacc; simpl in Hrun.
  - by injection Hrun as <-.
  - inv_rbind Hrun. apply (IH a r' Hrun).
    destruct (decide (f = field)) as [->|Hne].
    + rewrite (generalize_field_default record acc levels field v)
        in Ha by done.
      rewrite Hg in Ha. by injection Ha as <-.
    + by rewrite (generalize_field_other _ _ _ _ _ _ Hne Ha).
Qed.

(** C8, as the code has it: for a quasi-identifier without a dedicated
    routine whose value is a string, [apply_generalization] at level 2
    keeps the first half of a string of more than three characters and
    puts one mask character for each character of the second half, and
    at every level from 3 on stores the single mask symbol for it; a
    string of at most three characters is left as it is at every
    level, also when no level is given for the field. *)
Theorem apply_generalization_default_masks
  (record : row) (quasi_identifiers : list pystr) (levels : gmap pystr Z)
  (field : pystr) (s : pystr) (generalized : row) :
  field ∉ dedicated_fields →
  field ∈ quasi_identifiers →
  record !! field = Some (VStr s) →
  apply_generalization record quasi_identifiers levels = Ok generalized →
  ((3 < length s)%nat →
   (levels !! field = Some 2 →
    generalized !! field =
      Some (VStr (take (length s / 2) s
                  ++ replicate (length s - length s / 2) star)))
   ∧ (∀ level, levels !! field = Some level → 3 ≤ level →
      generalized !! field = Some (VStr [star])))
  ∧ ((length s ≤ 3)%nat → generalized !! field = Some (VStr s)).
Proof.
  intros Hnot Hin Hv Hrun. unfold apply_generalization in Hrun.
  split.
  - intros Hlen.
    assert (Hlong : (3 <? length s)%nat = true) by by apply Nat.ltb_lt.
    split.
    + intros Hlevel.
      eapply apply_generalization_loop; eauto.
      rewrite Hlevel. simpl. by rewrite Hlong.
    + intros level Hlevel Hge.
      eapply apply_generalization_loop; eauto.
      rewrite Hlevel. simpl. rewrite Hlong.
      destruct (level =? 1) eqn:H1; [apply Z.eqb_eq in H1; lia|].
      destruct (level =? 2) eqn:H2; [apply Z.eqb_eq in H2; lia|].
      done.
  - intros Hlen.
    assert (Hshort : (3 <? length s)%nat = false)
      by (apply Nat.ltb_ge; exact Hlen).
    eapply apply_generalization_loop_unchanged; eauto.
    simpl. by rewrite Hshort.
Qed.

(** Alone in the list, such a field makes the call return the record
    with the field masked. *)
Lemma apply_generalization_single (record : row) levels field s :
  field ∉ dedicated_fields →
  record !! field = Some (VStr s) →
  (3 < length s)%nat →
  levels !! field = Some 2 →
  apply_generalization record [field] levels =
    Ok (<[field := VStr (take (length s / 2) s
                         ++ replicate (length s - length s / 2) star)]>
          record).
Proof.
  intros Hnot Hv Hlen Hlevel. unfold apply_generalization. simpl.
  rewrite (generalize_field_default record record levels field (VStr s))
    by done.
  rewrite Hlevel. simpl.
  assert (Hlong : (3 <? length s)%nat = true) by by apply Nat.ltb_lt.
  by rewrite Hlong.
Qed.

End DefaultGeneralization.

(** ** Comparisons of floats, and the information loss *)

Lemma qlt_spec (x y : Q) : qlt x y = true ↔ (x < y)%Q.
Proof.
  unfold qlt. destruct (Qlt_le_dec x y) as [Hlt|Hle]; split; auto.
  - discriminate.
  - intros Hlt. exfalso. apply (Qlt_not_le _ _ Hlt Hle).
Qed.

Lemma qlt_false (x y : Q) : qlt x y = false ↔ (y <= x)%Q.
Proof.
  unfold qlt. destruct (Qlt_le_dec x y) as [Hlt|Hle]; split; auto.
  - discriminate.
  - intros Hle. exfalso. apply (Qlt_not_le _ _ Hlt Hle).
Qed.

Lemma py_min_spec (a b : Q) :
  ((b < a)%Q ∧ py_min a b = b) ∨ ((a <= b)%Q ∧ py_min a b = a).
Proof. unfold py_min. destruct (Qlt_le_dec b a); auto. Qed.

Lemma py_max_spec (a b : Q) :
  ((a < b)%Q ∧ py_max a b = b) ∨ ((b <= a)%Q ∧ py_max a b = a).
Proof. unfold py_max. destruct (Qlt_le_dec a b); auto. Qed.

(** [float_int_bound] is where the rounding of an int overflows: the
    int before it rounds to the largest float. *)
Lemma float_int_bound_spec :
  float_of_Q (inject_Z float_int_bound) = S754_infinity false
  ∧ float_of_Q (inject_Z (float_int_bound - 1)) = SFmax_float 53 1024.
Proof. split; vm_compute; reflexivity. Qed.

Section InformationLoss.

Context `{PyRuntime}.

(** What [float] raises: the two errors that [_get_global_ranges] and
    [generalize_revenue] catch, and the one they let through. *)
Lemma py_float_errors v e :
  py_float v = Raise e →
  e = TypeError ∨ e = ValueError ∨ e = OverflowError.
Proof.
  destruct v as [|z|q|s]; simpl; try discriminate.
  - intros [= <-]. by left.
  - destruct (Z.abs z <? float_int_bound); [discriminate|].
    intros [= <-]. by right; right.
  - destruct (float_parse s); [discriminate|].
    intros [= <-]. by right; left.
Qed.

(** A cell whose two strings are equal has the loss 0, whatever the
    ranges. *)
Lemma cell_loss_unchanged (ranges : gmap pystr float64) qi orig anon :
  py_str orig = py_str anon → cell_loss ranges qi orig anon = f64_zero.
Proof.
  intros Heq. unfold cell_loss. by rewrite bool_decide_eq_true_2.
Qed.

(** Under a range that has overflowed, a changed cell that is
    generalized to an interval of finite width has the loss 0, and one
    whose width has overflowed too has the loss [nan]. *)
Lemma cell_loss_infinite_range (ranges : gmap pystr float64) qi orig anon :
  py_str orig ≠ py_str anon →
  py_str anon ∉ suppression_marks →
  ranges !! qi = Some (S754_infinity false) →
  (∀ m e, _parse_interval_width (py_str anon) = S754_finite false m e →
          cell_loss ranges qi orig anon = f64_zero)
  ∧ (_parse_interval_width (py_str anon) = S754_infinity false →
     cell_loss ranges qi orig anon = S754_nan).
Proof.
  intros Hne Hmark Hrange. unfold cell_loss.
  rewrite (bool_decide_eq_false_2 _ Hne), (bool_decide_eq_false_2 _ Hmark).
  rewrite Hrange. split.
  - intros m e ->. reflexivity.
  - intros ->. reflexivity.
Qed.

End InformationLoss.

(** ** The generalization taxonomy of the numeric fields *)

Section GeneralizationTaxonomy.

Context `{PyRuntime}.

(** [None] gives the sentinel in the three numeric routines. *)
Lemma numeric_generalizers_on_None (level : Z) :
  generalize_revenue VNone level = Ok (VStr (u8 "未知"))
  ∧ generalize_market_share VNone level = Ok (VStr (u8 "未知"))
  ∧ generalize_rd_ratio VNone level = Ok (VStr (u8 "未知")).
Proof. done. Qed.

(** [generalize_revenue] converts its argument under [try], and gives
    the sentinel for a string that is not a numeral. *)
Lemma generalize_revenue_unparseable (s : pystr) (level : Z) :
  float_parse s = None →
  generalize_revenue (VStr s) level = Ok (VStr (u8 "未知")).
Proof. intros Hs. unfold generalize_revenue. simpl. by rewrite Hs. Qed.

(** [generalize_revenue] returns a label for every value that is not
    an int beyond the range of the floats, and so for every string. *)
Lemma generalize_revenue_total (v : value) (level : Z) :
  (∀ z, v = VInt z → Z.abs z < float_int_bound) →
  ∃ label, generalize_revenue v level = Ok (VStr label).
Proof.
  intros Hrange. unfold generalize_revenue.
  destruct v as [|z|q|s]; simpl; eauto.
  - rewrite (proj2 (Z.ltb_lt _ _) (Hrange z eq_refl)).
    destruct (revenue_bins level) as [bins labels].
    destruct (find_bin _ _ _); eauto.
  - destruct (revenue_bins level) as [bins labels].
    destruct (find_bin _ _ _); eauto.
  - destruct (float_parse s); eauto.
    destruct (revenue_bins level) as [bins labels].
    destruct (find_bin _ _ _); eauto.
Qed.

(** C3, at the inputs where the code departs from it: the two routines
    that compare their argument without converting it raise a
    [TypeError] on every string, at every level. *)
Theorem numeric_generalizers_on_strings (s : pystr) (level : Z) :
  generalize_market_share (VStr s) level = Raise TypeError
  ∧ generalize_rd_ratio (VStr s) level = Raise TypeError.
Proof.
  unfold generalize_market_share, generalize_rd_ratio.
  destruct (level =? 1); [done|]. by destruct (level =? 2).
Qed.

(** The bound of the floats lies beyond every boundary of a bin. *)
Lemma float_int_bound_large : (500 < inject_Z float_int_bound)%Q.
Proof. reflexivity. Qed.

Ltac bin_cases :=
  pose proof float_int_bound_large;
  unfold bound_le, lt_bound, qle, qlt;
  repeat (destruct (Qlt_le_dec _ _); simpl);
  try (exfalso; lra); try (vm_compute; reflexivity).

(** The outcome of [generalize_revenue] at a level, for the number that
    [float] gives, or for its exception. *)
Lemma generalize_revenue_label (v : value) (level : Z) :
  generalize_revenue v level =
    match v, py_float v with
    | VNone, _ => Ok (VStr (u8 "未知"))
    | _, Raise OverflowError => Raise OverflowError
    | _, Raise _ => Ok (VStr (u8 "未知"))
    | _, Ok x =>
      Ok (VStr (default (u8 "未知")
                  (find_bin (revenue_bins level).1
                            (revenue_bins level).2 x)))
    end.
Proof.
  unfold generalize_revenue.
  destruct v as [|z|q|s]; simpl; try done;
    try (destruct (revenue_bins level) as [bins labels]; simpl;
         by destruct (find_bin _ _ _)).
  - destruct (Z.abs z <? float_int_bound); [|done].
    destruct (revenue_bins level) as [bins labels]; simpl;
      by destruct (find_bin _ _ _).
  - destruct (float_parse s); [|done].
    destruct (revenue_bins level) as [bins labels]; simpl;
      by destruct (find_bin _ _ _).
Qed.

(** The revenue bins of level 2 are unions of bins of level 1, and those
    of level 3 unions of bins of level 2: the label of the coarser level
    is a function of the label of the finer one. *)
Lemma revenue_bins_nested :
  (∃ f, f (u8 "未知") = u8 "未知" ∧ ∀ x,
     default (u8 "未知")
             (find_bin (revenue_bins 2).1 (revenue_bins 2).2 x)
     = f (default (u8 "未知")
                  (find_bin (revenue_bins 1).1 (revenue_bins 1).2 x)))
  ∧ (∃ f, f (u8 "未知") = u8 "未知" ∧ ∀ x,
       default (u8 "未知")
               (find_bin (revenue_bins 3).1 (revenue_bins 3).2 x)
       = f (default (u8 "未知")
                    (find_bin (revenue_bins 2).1 (revenue_bins 2).2 x))).
Proof.
  split.
  - exists (λ s, if bool_decide
                      (s ∈ map u8 ["1亿以下"; "1-5亿"; "5-10亿"]%string)
                 then u8 "10亿以下"
                 else if bool_decide
                           (s ∈ map u8 ["100-500亿"; "500亿以上"]%string)
                 then u8 "100亿以上"
                 else s).
    split; [vm_compute; reflexivity|]. intros x. simpl. bin_cases.
  - exists (λ s, if bool_decide
                      (s ∈ map u8 ["10亿以下"; "10-50亿"]%string)
                 then u8 "50亿以下"
                 else s).
    split; [vm_compute; reflexivity|]. intros x. simpl. bin_cases.
Qed.

Lemma generalize_revenue_nested :
  (∃ F, ∀ v, generalize_revenue v 2 = F (generalize_revenue v 1))
  ∧ (∃ F, ∀ v, generalize_revenue v 3 = F (generalize_revenue v 2)).
Proof.
  destruct revenue_bins_nested as [(f12 & Hu12 & H12) (f23 & Hu23 & H23)].
  split.
  - exists (λ r, match r with
                 | Ok (VStr s) => Ok (VStr (f12 s))
                 | _ => r
                 end).
    intros v. rewrite !generalize_revenue_label.
    destruct v as [|z|q|s]; cbn [py_float]; rewrite ?H12, ?Hu12; try done.
    + destruct (Z.abs z <? float_int_bound); by rewrite ?H12, ?Hu12.
    + destruct (float_parse s); by rewrite ?H12, ?Hu12.
  - exists (λ r, match r with
                 | Ok (VStr s) => Ok (VStr (f23 s))
                 | _ => r
                 end).
    intros v. rewrite !generalize_revenue_label.
    destruct v as [|z|q|s]; cbn [py_float]; rewrite ?H23, ?Hu23; try done.
    + destruct (Z.abs z <? float_int_bound); by rewrite ?H23, ?Hu23.
    + destruct (float_parse s); by rewrite ?H23, ?Hu23.
Qed.

(** The routine that the spec's example names is monotone: two values
    that share a revenue bin at a level share one at the next level. *)
Lemma generalize_revenue_monotone (v1 v2 : value) (level : Z) :
  1 ≤ level →
  generalize_revenue v1 level = generalize_revenue v2 level →
  generalize_revenue v1 (level + 1) = generalize_revenue v2 (level + 1).
Proof.
  intros Hlevel.
  assert (Hcoarse : ∃ F, ∀ v,
            generalize_revenue v (level + 1)
            = F (generalize_revenue v level)).
  { destruct generalize_revenue_nested as [H12 H23].
    destruct (decide (level = 1)) as [->|H1]; [exact H12|].
    destruct (decide (level = 2)) as [->|H2]; [exact H23|].
    exists (λ r, r). intros v. rewrite !generalize_revenue_label.
    unfold revenue_bins.
    destruct (level =? 1) eqn:E1; [apply Z.eqb_eq in E1; lia|].
    destruct (level =? 2) eqn:E2; [apply Z.eqb_eq in E2; lia|].
    destruct (level + 1 =? 1) eqn:E3; [apply Z.eqb_eq in E3; lia|].
    destruct (level + 1 =? 2) eqn:E4; [apply Z.eqb_eq in E4; lia|].
    done. }
  destruct Hcoarse as [F HF].
  intros Heq. by rewrite !HF, Heq.
Qed.

(** C2, at the inputs where the code departs from it: the shares 7 and
    12 lie in one bin of level 2 and in two bins of level 3, and so do
    the ratios 12 and 16; the bin of level 3 does not contain the bin of
    level 2. *)
Theorem level3_splits_level2_bins :
  (generalize_market_share (VInt 7) 2 = generalize_market_share (VInt 12) 2
   ∧ generalize_market_share (VInt 7) 3
     ≠ generalize_market_share (VInt 12) 3)
  ∧ (generalize_rd_ratio (VInt 12) 2 = generalize_rd_ratio (VInt 16) 2
     ∧ generalize_rd_ratio (VInt 12) 3 ≠ generalize_rd_ratio (VInt 16) 3).
Proof.
  repeat split; try (vm_compute; reflexivity); vm_compute; discriminate.
Qed.

End GeneralizationTaxonomy.

(** ** The noise mechanisms and the queries *)

Lemma bind_snd {A B} (m : M A) (f : A → M B) w :
  (bind m f w).2 = match m w with
                   | (Ok a, w1) => (f a w1).2
                   | (Raise _, w1) => w1
                   end.
Proof. unfold bind. by destruct (m w) as [[a|e] w1]. Qed.

Lemma keeps_self_ret {A} (a : A) : keeps_self (ret a).
Proof. done. Qed.

Lemma keeps_self_raise {A} e : keeps_self (@raise A e).
Proof. done. Qed.

Lemma keeps_self_lift {A} (r : result A) : keeps_self (lift r).
Proof. done. Qed.

Lemma keeps_self_get : keeps_self get_self.
Proof. done. Qed.

Lemma keeps_self_bind {A B} (m : M A) (f : A → M B) :
  keeps_self m → (∀ a, keeps_self (f a)) → keeps_self (bind m f).
Proof.
  intros Hm Hf w. rewrite bind_snd. specialize (Hm w).
  destruct (m w) as [[a|e] w1]; simpl in *; [|done].
  by rewrite Hf.
Qed.

Lemma keeps_self_mfold {A B} (f : B → A → M B) l acc :
  (∀ b a, keeps_self (f b a)) → keeps_self (mfold f l acc).
Proof.
  intros Hf. revert acc.
  induction l as [|x l IH]; intros acc; simpl.
  - apply keeps_self_ret.
  - apply keeps_self_bind; [apply Hf | apply IH].
Qed.

(** A call that returns leaves the attributes as they were. *)
Lemma keeps_self_Ok {A} (m : M A) w a w' :
  keeps_self m → m w = (Ok a, w') → self w' = self w.
Proof. intros Hm Hrun. specialize (Hm w). by rewrite Hrun in Hm. Qed.

Section NoiseMechanisms.

Context `{PyRuntime} `{NoiseRuntime}.

Lemma keeps_self_draw_laplace scale : keeps_self (draw_laplace scale).
Proof. intros w. unfold draw_laplace. by destruct (qlt scale 0). Qed.

Lemma keeps_self_draw_normal sigma : keeps_self (draw_normal sigma).
Proof. intros w. unfold draw_normal. by destruct (qlt sigma 0). Qed.

Lemma keeps_self_laplace_mechanism x s e :
  keeps_self (laplace_mechanism x s e).
Proof.
  unfold laplace_mechanism.
  repeat first
    [ apply keeps_self_ret | apply keeps_self_lift | apply keeps_self_get
    | apply keeps_self_draw_laplace
    | apply keeps_self_bind; [|intros ?] ].
Qed.

Lemma keeps_self_gaussian_mechanism x s e d :
  keeps_self (gaussian_mechanism x s e d).
Proof.
  unfold gaussian_mechanism.
  repeat first
    [ apply keeps_self_ret | apply keeps_self_lift | apply keeps_self_get
    | apply keeps_self_draw_normal
    | apply keeps_self_bind; [|intros ?] ].
Qed.


Lemma keeps_self_add_noise_to_field v field m :
  keeps_self (add_noise_to_field v field m).
Proof.
  unfold add_noise_to_field. destruct v as [v|]; [|apply keeps_self_ret].
  apply keeps_self_bind; [apply keeps_self_get | intros s].
  apply keeps_self_bind.
  - repeat case_bool_decide;
      auto using keeps_self_laplace_mechanism,
                 keeps_self_gaussian_mechanism, keeps_self_raise.
  - intros noisy. apply keeps_self_bind; [apply keeps_self_get|].
    intros s'. destruct (field_bounds s' !! field); apply keeps_self_ret.
Qed.



(** With a positive [self.epsilon] and a non-negative sensitivity the
    Laplace mechanism returns the true value plus the draw at the scale
    [sensitivity / self.epsilon]. *)
Lemma laplace_mechanism_returns (true_value sensitivity : Q) (w : world) :
  (0 < epsilon (self w))%Q → (0 <= sensitivity)%Q →
  laplace_mechanism true_value sensitivity None w =
    (Ok (true_value
         + np_random_laplace (draws w)
                             (sensitivity / epsilon (self w)))%Q,
     {| self := self w; draws := S (draws w) |}).
Proof.
  intros Heps Hsens.
  unfold laplace_mechanism, bind, get_self, lift, py_div, or_default,
    self_epsilon.
  destruct (Qeq_bool (epsilon (self w)) 0) eqn:Hz.
  { apply Qeq_bool_iff in Hz. lra. }
  unfold draw_laplace.
  destruct (qlt _ 0) eqn:Hneg; [|done].
  apply qlt_spec in Hneg. exfalso.
  assert (0 <= sensitivity / epsilon (self w))%Q; [|lra].
  apply Qle_shift_div_l; [exact Heps | lra].
Qed.

End NoiseMechanisms.

(** ** Rounding *)

Lemma py_round_cases (x : Q) :
  let f := Qfloor x in
  let d := (x - inject_Z f)%Q in
  (0 <= d ∧ d < 1)%Q
  ∧ (((d < 1 # 2)%Q ∧ py_round x = f)
     ∨ ((1 # 2 < d)%Q ∧ py_round x = f + 1)
     ∨ ((d == 1 # 2)%Q
        ∧ py_round x = if Z.even f then f else f + 1)).
Proof.
  intros f d.
  pose proof (Qfloor_le x) as Hlo. pose proof (Qlt_floor x) as Hhi.
  fold f in Hlo, Hhi. rewrite inject_Z_plus in Hhi.
  change (inject_Z 1) with 1%Q in Hhi.
  split; [unfold d; split; lra|].
  unfold py_round. fold f. fold d.
  destruct (Qlt_le_dec d (1 # 2)) as [Hlt|Hge]; [by left|].
  destruct (Qlt_le_dec (1 # 2) d) as [Hgt|Hle]; [right; by left|].
  right. right. split; [lra | done].
Qed.

(** [round] gives an integer nearest to its argument. *)
Lemma py_round_nearest (x : Q) :
  (Qabs (x - inject_Z (py_round x)) <= 1 # 2)%Q.
Proof.
  destruct (py_round_cases x) as [[Hd0 Hd1] Hcases].
  set (f := Qfloor x) in *.
  apply Qabs_Qle_condition.
  destruct Hcases as [[Hd ->] | [[Hd ->] | [Hd ->]]].
  - split; lra.
  - rewrite inject_Z_plus. change (inject_Z 1) with 1%Q. split; lra.
  - destruct (Z.even f); [split; lra|].
    rewrite inject_Z_plus. change (inject_Z 1) with 1%Q. split; lra.
Qed.

Lemma py_round_mono (x y : Q) : (x <= y)%Q → py_round x ≤ py_round y.
Proof.
  intros Hxy.
  pose proof (Qfloor_resp_le x y Hxy) as Hfloor.
  destruct (py_round_cases x) as [[Hx0 Hx1] Hx].
  destruct (py_round_cases y) as [[Hy0 Hy1] Hy].
  destruct (decide (Qfloor x = Qfloor y)) as [Heq|Hne].
  - rewrite <- Heq in *.
    set (f := Qfloor x) in *.
    destruct Hx as [[Hdx ->] | [[Hdx ->] | [Hdx ->]]];
      destruct Hy as [[Hdy ->] | [[Hdy ->] | [Hdy ->]]];
      try lia; try (exfalso; lra); destruct (Z.even f); try lia;
      exfalso; lra.
  - assert (py_round x ≤ Qfloor x + 1).
    { destruct Hx as [[_ ->] | [[_ ->] | [_ ->]]];
        try lia; destruct (Z.even (Qfloor x)); lia. }
    assert (Qfloor y ≤ py_round y).
    { destruct Hy as [[_ ->] | [[_ ->] | [_ ->]]];
        try lia; destruct (Z.even (Qfloor y)); lia. }
    lia.
Qed.

Lemma round4_mono (x y : Q) : (x <= y)%Q → (round4 x <= round4 y)%Q.
Proof.
  intros Hxy. unfold round4.
  assert (Hr : py_round (x * 10000) ≤ py_round (y * 10000)).
  { apply py_round_mono. lra. }
  rewrite Zle_Qle in Hr.
  apply Qle_shift_div_l; [reflexivity|].
  unfold Qdiv. rewrite <- Qmult_assoc.
  rewrite (Qmult_comm (/ 10000)), Qmult_inv_r by discriminate. lra.
Qed.

Lemma clip_within (lo hi x : Q) :
  (lo <= hi)%Q → within lo hi (clip (lo, hi) x).
Proof.
  intros Hle. unfold within, clip.
  destruct (py_min_spec hi x) as [[H1 ->] | [H1 ->]];
    destruct (py_max_spec lo x) as [[H2 E] | [H2 E]];
    destruct (py_max_spec lo hi) as [[H3 E'] | [H3 E']];
    rewrite ?E, ?E'; split; lra.
Qed.

(** ** The statistical queries *)



Ltac inv_get H :=
  let s := fresh "s" in
  let w := fresh "w" in
  let Hs := fresh "Hs" in
  apply bind_Ok in H; destruct H as (s & w & Hs & H);
  unfold get_self in Hs; injection Hs as <- <-.

Section StatisticalQueries.

Context `{PyRuntime} `{NoiseRuntime}.

(** [query_count] returns where the mechanism returns, with the noisy
    count rounded and raised to 0. *)
Lemma query_count_of_noise
  (data : list row) (filter_condition : option (gmap pystr value))
  (mechanism : pystr) (w w' : world) (noisy : Q) :
  query_noise mechanism
    (inject_Z (Z.of_nat (length (apply_filter data filter_condition)))) 1 w
    = (Ok noisy, w') →
  ∃ info,
    query_count data filter_condition mechanism w
      = (Ok (Z.max 0 (py_round noisy), info), w')
    ∧ count_noisy_count info = Z.max 0 (py_round noisy).
Proof.
  intros Hnoise. unfold query_count, bind. rewrite Hnoise.
  unfold get_self, ret. eexists. split; reflexivity.
Qed.

(** C6. Whatever noisy value the mechanism has produced for the count,
    [query_count] returns it rounded to a nearest integer and raised to 0
    when it is negative: the result is an integer that is not negative. *)
Theorem query_count_nonnegative
  (data : list row) (filter_condition : option (gmap pystr value))
  (mechanism : pystr) (w w' : world) (noisy : Q) :
  query_noise mechanism
    (inject_Z (Z.of_nat (length (apply_filter data filter_condition)))) 1 w
    = (Ok noisy, w') →
  ∃ info,
    query_count data filter_condition mechanism w
      = (Ok (Z.max 0 (py_round noisy), info), w')
    ∧ count_noisy_count info = Z.max 0 (py_round noisy)
    ∧ 0 ≤ Z.max 0 (py_round noisy)
    ∧ (Qabs (noisy - inject_Z (py_round noisy)) <= 1 # 2)%Q.
Proof.
  intros Hnoise.
  destruct (query_count_of_noise data filter_condition mechanism
              w w' noisy Hnoise) as (info & Hcount & Hinfo).
  exists info. split; [exact Hcount|]. split; [exact Hinfo|].
  split; [lia | apply py_round_nearest].
Qed.

(** No run of [query_count] returns a negative count. *)
Lemma query_count_never_negative
  (data : list row) (filter_condition : option (gmap pystr value))
  (mechanism : pystr) (w : world) :
  match (query_count data filter_condition mechanism w).1 with
  | Ok (n, _) => 0 ≤ n
  | Raise _ => True
  end.
Proof.
  unfold query_count, bind.
  destruct (query_noise _ _ _ w) as [[noisy|e] w1]; simpl; [lia | done].
Qed.

(** [add_noise_to_field] rejects a mechanism that is neither ['laplace']
    nor ['gaussian'], before any draw. *)
Lemma add_noise_to_field_unknown_mechanism
  (v : Q) (field mechanism : pystr) (w : world) :
  mechanism ≠ u8 "laplace" → mechanism ≠ u8 "gaussian" →
  add_noise_to_field (Some v) field mechanism w = (Raise ValueError, w).
Proof.
  intros Hl Hg. unfold add_noise_to_field, bind, get_self.
  by rewrite !bool_decide_eq_false_2.
Qed.

(** C4, at the inputs where the code departs from it: in the queries a
    mechanism name that is neither ['laplace'] nor ['gaussian'] selects
    the Gaussian mechanism, and [query_count] returns a noised count
    where that mechanism returns; only [add_noise_to_field] raises. *)
Theorem queries_run_unknown_mechanism_as_gaussian
  (mechanism : pystr) (data : list row)
  (filter_condition : option (gmap pystr value)) (w : world) :
  mechanism ≠ u8 "laplace" → mechanism ≠ u8 "gaussian" →
  (∀ true_value sensitivity,
     query_noise mechanism true_value sensitivity w
     = gaussian_mechanism true_value sensitivity None None w)
  ∧ (∀ noisy w',
       gaussian_mechanism
         (inject_Z (Z.of_nat (length (apply_filter data filter_condition))))
         1 None None w = (Ok noisy, w') →
       ∃ info, query_count data filter_condition mechanism w
               = (Ok (Z.max 0 (py_round noisy), info), w'))
  ∧ (∀ v field,
       add_noise_to_field (Some v) field mechanism w
       = (Raise ValueError, w)).
Proof.
  intros Hl Hg.
  assert (Hnoise : ∀ x s, query_noise mechanism x s w
                          = gaussian_mechanism x s None None w).
  { intros x s. unfold query_noise. by rewrite bool_decide_eq_false_2. }
  split; [exact Hnoise|]. split.
  - intros noisy w' Hrun. rewrite <- Hnoise in Hrun.
    destruct (query_count_of_noise data filter_condition mechanism
                w w' noisy Hrun) as (info & Hcount & _).
    eauto.
  - intros v field. by apply add_noise_to_field_unknown_mechanism.
Qed.


End StatisticalQueries.

(** ** The bounds table of the instance *)

Lemma update_bounds_field_bounds cb s field :
  field_bounds (update_bounds cb s) !! field =
    match cb !! field with
    | Some b => Some b
    | None => field_bounds s !! field
    end.
Proof.
  unfold update_bounds. simpl. rewrite lookup_union.
  destruct (cb !! field), (field_bounds s !! field); done.
Qed.

Lemma update_bounds_field_sensitivity cb s field :
  field_sensitivity (update_bounds cb s) !! field =
    match cb !! field with
    | Some b => Some (b.2 - b.1)%Q
    | None => field_sensitivity s !! field
    end.
Proof.
  unfold update_bounds. simpl. revert field.
  apply (map_fold_weak_ind
           (λ (r : gmap pystr Q) (m : gmap pystr (Q * Q)),
              ∀ field, r !! field = match m !! field with
                                    | Some b => Some (b.2 - b.1)%Q
                                    | None => field_sensitivity s !! field
                                    end)).
  - intros field. by rewrite lookup_empty.
  - intros i b m r Hfresh IH field.
    destruct (decide (i = field)) as [->|Hne].
    + by rewrite !lookup_insert_eq.
    + rewrite !lookup_insert_ne by done. apply IH.
Qed.

Section BoundsPersistence.

Context `{PyRuntime} `{NoiseRuntime}.

Lemma keeps_self_privatize_field record mechanism acc field :
  keeps_self (privatize_field record mechanism acc field).
Proof.
  unfold privatize_field. destruct acc as [private_record field_changes].
  destruct (record !! field) as [[|z|q|s]|];
    try apply keeps_self_ret;
    (apply keeps_self_bind; [apply keeps_self_lift | intros x];
     apply keeps_self_bind;
       [apply keeps_self_add_noise_to_field | intros [noisy|]];
     [apply keeps_self_ret | apply keeps_self_raise]).
Qed.

(** Without custom bounds a call leaves the tables as they are. *)
Lemma keeps_self_privatize_enterprise_data data numeric_fields mechanism :
  keeps_self (privatize_enterprise_data data numeric_fields mechanism None).
Proof.
  unfold privatize_enterprise_data.
  destruct data as [|record data]; [apply keeps_self_ret|].
  apply keeps_self_bind; [apply keeps_self_ret | intros _].
  apply keeps_self_bind.
  - apply keeps_self_mfold. intros [privatized_data field_changes] r.
    apply keeps_self_bind.
    + apply keeps_self_mfold. intros acc field.
      apply keeps_self_privatize_field.
    + intros [private_record field_changes']. apply keeps_self_ret.
  - intros [privatized_data field_changes].
    apply keeps_self_bind; [apply keeps_self_get | intros s].
    apply keeps_self_ret.
Qed.

(** After a call on data that is not empty, with custom bounds that are
    not empty, the instance is the one the update gives, whether the
    call has returned or raised. *)
Lemma privatize_enterprise_data_updates data numeric_fields mechanism cb w :
  data ≠ [] → cb ≠ ∅ →
  self (privatize_enterprise_data data numeric_fields mechanism
                                  (Some cb) w).2
  = update_bounds cb (self w).
Proof.
  intros Hdata Hcb. unfold privatize_enterprise_data.
  destruct data as [|record data]; [done|].
  rewrite bool_decide_eq_false_2 by done.
  rewrite bind_snd.
  change ((let! s := get_self in set_self (update_bounds cb s)) w)
    with (Ok tt, {| self := update_bounds cb (self w); draws := draws w |}).
  cbv beta iota.
  match goal with
  | |- self (?rest ?w1).2 = _ =>
    assert (Hkeep : keeps_self rest); [|by rewrite Hkeep]
  end.
  apply keeps_self_bind.
  - apply keeps_self_mfold. intros [privatized_data field_changes] r.
    apply keeps_self_bind.
    + apply keeps_self_mfold. intros acc field.
      apply keeps_self_privatize_field.
    + intros [private_record field_changes']. apply keeps_self_ret.
  - intros [privatized_data field_changes].
    apply keeps_self_bind; [apply keeps_self_get | intros s].
    apply keeps_self_ret.
Qed.

(** C9, as the code has it: a call of [privatize_enterprise_data] on
    data that is not empty, with custom bounds that are not empty, puts
    the custom bounds into the bounds table of the instance and sets the
    sensitivity of each overridden field to [max - min]; the other
    entries stay, and a later call without custom bounds on the same
    instance starts from, and keeps, the updated tables. On empty data
    the call returns the error report before the update, whatever the
    custom bounds, and leaves the instance as it was. *)
Theorem custom_bounds_persist
  (data : list row) (numeric_fields : list pystr) (mechanism : pystr)
  (custom_bounds : gmap pystr (Q * Q)) (w : world) :
  let w' := (privatize_enterprise_data data numeric_fields mechanism
                                       (Some custom_bounds) w).2 in
  (data ≠ [] → custom_bounds ≠ ∅ →
   (∀ field lo hi,
      custom_bounds !! field = Some (lo, hi) →
      field_bounds (self w') !! field = Some (lo, hi)
      ∧ field_sensitivity (self w') !! field = Some (hi - lo)%Q)
   ∧ (∀ field,
        custom_bounds !! field = None →
        field_bounds (self w') !! field = field_bounds (self w) !! field
        ∧ field_sensitivity (self w') !! field
          = field_sensitivity (self w) !! field)
   ∧ (∀ data' numeric_fields' mechanism',
        self (privatize_enterprise_data data' numeric_fields' mechanism'
                                        None w').2
        = self w'))
  ∧ (∀ bounds : option (gmap pystr (Q * Q)),
       privatize_enterprise_data [] numeric_fields mechanism bounds w
       = (Ok ([], PrivatizeError (u8 "No data provided")), w)).
Proof.
  intros w'. split; [|reflexivity].
  intros Hdata Hcb.
  assert (Hself : self w' = update_bounds custom_bounds (self w))
    by by apply privatize_enterprise_data_updates.
  split; [|split].
  - intros field lo hi Hfield. rewrite Hself.
    rewrite update_bounds_field_bounds, update_bounds_field_sensitivity.
    by rewrite Hfield.
  - intros field Hfield. rewrite Hself.
    rewrite update_bounds_field_bounds, update_bounds_field_sensitivity.
    by rewrite Hfield.
  - intros data' numeric_fields' mechanism'.
    apply keeps_self_privatize_enterprise_data.
Qed.

End BoundsPersistence.

(** ** Examples *)

Section Examples.

Local Existing Instance example_runtime.
Local Existing Instance example_noise.

(** Two records that differ in the second half of a name fall into one
    class of size 2 after one escalation, and the flag is true. *)
Lemma anonymize_k_anonymous_output_witness :
  ∃ anonymized_data stats,
    anonymize 2 example_people [u8 "name"; u8 "city"] None None 3
      = Ok (anonymized_data, Stats stats)
    ∧ is_k_anonymous stats = true
    ∧ Forall (λ c, 2 ≤ Z.of_nat (length c.2))
             (build_equivalence_classes anonymized_data
                                        [u8 "name"; u8 "city"]).
Proof.
  eexists _, _. split; [vm_compute; reflexivity|].
  split; [reflexivity|].
  eapply (anonymize_k_anonymous_output 2 example_people
            [u8 "name"; u8 "city"] None None 3);
    [vm_compute; reflexivity | reflexivity].
Defined.

(** At level 2 a name of six characters keeps three and gets three
    masks. *)
Lemma apply_generalization_default_masks_witness :
  let record : row := {[ u8 "name" := VStr (u8 "abcdef") ]} in
  let levels : gmap pystr Z := {[ u8 "name" := 2 ]} in
  ((u8 "name" ∉ dedicated_fields)
   ∧ u8 "name" ∈ [u8 "name"]
   ∧ record !! u8 "name" = Some (VStr (u8 "abcdef"))
   ∧ (3 < length (u8 "abcdef"))%nat
   ∧ ∃ generalized,
       apply_generalization record [u8 "name"] levels = Ok generalized
       ∧ levels !! u8 "name" = Some 2
       ∧ generalized !! u8 "name" = Some (VStr (u8 "abc***"))).
Proof.
  intros record levels.
  assert (Hnot : u8 "name" ∉ dedicated_fields).
  { refine (bool_decide_unpack (u8 "name" ∉ dedicated_fields) _).
    vm_compute. exact I. }
  assert (Hin : u8 "name" ∈ [u8 "name"]) by apply list_elem_of_here.
  assert (Hlen : (3 < length (u8 "abcdef"))%nat) by (vm_compute; lia).
  split; [exact Hnot|]. split; [exact Hin|].
  split; [reflexivity|]. split; [exact Hlen|].
  eexists. split; [vm_compute; reflexivity|]. split; [reflexivity|].
  refine (proj1 (proj1 (apply_generalization_default_masks record
                          [u8 "name"] levels (u8 "name") (u8 "abcdef") _
                          Hnot Hin _ _) Hlen) _);
    [reflexivity | vm_compute; reflexivity | reflexivity].
Defined.

(** A name of three characters is left as it is at level 3, and one of
    two characters at level 2. *)
Lemma short_strings_are_not_masked :
  (∃ generalized,
     apply_generalization {[ u8 "name" := VStr (u8 "abc") ]} [u8 "name"]
                          {[ u8 "name" := 3 ]} = Ok generalized
     ∧ generalized !! u8 "name" = Some (VStr (u8 "abc"))
     ∧ generalized !! u8 "name" ≠ Some (VStr [star]))
  ∧ (∃ generalized,
       apply_generalization {[ u8 "name" := VStr (u8 "ab") ]} [u8 "name"]
                            {[ u8 "name" := 2 ]} = Ok generalized
       ∧ generalized !! u8 "name" = Some (VStr (u8 "ab"))
       ∧ generalized !! u8 "name" ≠ Some (VStr (u8 "a*"))).
Proof.
  split; eexists; (split; [vm_compute; reflexivity|]);
    (split; [vm_compute; reflexivity | vm_compute; discriminate]).
Qed.

(** A count of 0 with the draw [-1]: the rounded value [-1] is raised
    to 0. *)
Lemma query_count_nonnegative_witness :
  let filter_condition : option (gmap pystr value) :=
    Some {[ u8 "r_and_d_ratio" := VInt 999 ]} in
  ∃ noisy w',
    query_noise (u8 "laplace")
      (inject_Z (Z.of_nat
         (length (apply_filter example_ratios filter_condition))))
      1 example_world = (Ok noisy, w')
    ∧ ∃ info,
        query_count example_ratios filter_condition (u8 "laplace")
                    example_world
          = (Ok (Z.max 0 (py_round noisy), info), w')
        ∧ count_noisy_count info = Z.max 0 (py_round noisy)
        ∧ 0 ≤ Z.max 0 (py_round noisy)
        ∧ (Qabs (noisy - inject_Z (py_round noisy)) <= 1 # 2)%Q.
Proof.
  intros filter_condition. eexists _, _.
  split; [vm_compute; reflexivity|].
  apply (query_count_nonnegative example_ratios filter_condition
           (u8 "laplace") example_world).
  vm_compute. reflexivity.
Defined.

(** The name ['exponential'] in [query_count]: a count comes back. *)
Lemma queries_run_unknown_mechanism_as_gaussian_witness :
  u8 "exponential" ≠ u8 "laplace"
  ∧ u8 "exponential" ≠ u8 "gaussian"
  ∧ ∃ noisy w',
      gaussian_mechanism
        (inject_Z (Z.of_nat (length (apply_filter example_ratios None))))
        1 None None example_world = (Ok noisy, w')
      ∧ ∃ info, query_count example_ratios None (u8 "exponential")
                            example_world
                = (Ok (Z.max 0 (py_round noisy), info), w').
Proof.
  assert (Hl : u8 "exponential" ≠ u8 "laplace") by (vm_compute; discriminate).
  assert (Hg : u8 "exponential" ≠ u8 "gaussian") by (vm_compute; discriminate).
  split; [exact Hl|]. split; [exact Hg|].
  eexists _, _. split; [vm_compute; reflexivity|].
  apply (proj1 (proj2 (queries_run_unknown_mechanism_as_gaussian
                         (u8 "exponential") example_ratios None
                         example_world Hl Hg))).
  vm_compute. reflexivity.
Defined.



(** A call with [example_bounds] on two records. *)
Lemma custom_bounds_persist_witness :
  example_ratios ≠ []
  ∧ example_bounds ≠ ∅
  ∧ example_bounds !! u8 "r_and_d_ratio" = Some (4 # 100000, 3 # 10)%Q
  ∧ field_bounds (self example_world_after) !! u8 "r_and_d_ratio"
    = Some (4 # 100000, 3 # 10)%Q
  ∧ field_sensitivity (self example_world_after) !! u8 "r_and_d_ratio"
    = Some ((3 # 10) - (4 # 100000))%Q.
Proof.
  assert (Hdata : example_ratios ≠ []) by discriminate.
  assert (Hcb : example_bounds ≠ ∅).
  { intros Heq.
    apply (f_equal (λ m : gmap pystr (Q * Q), m !! u8 "r_and_d_ratio"))
      in Heq.
    vm_compute in Heq. discriminate. }
  assert (Hfield : example_bounds !! u8 "r_and_d_ratio"
                   = Some (4 # 100000, 3 # 10)%Q) by (vm_compute; reflexivity).
  split; [exact Hdata|]. split; [exact Hcb|]. split; [exact Hfield|].
  exact (proj1 (proj1 (custom_bounds_persist example_ratios
                         [u8 "r_and_d_ratio"] (u8 "laplace") example_bounds
                         example_world) Hdata Hcb)
               (u8 "r_and_d_ratio") (4 # 100000)%Q (3 # 10)%Q Hfield).
Defined.

(** On an empty data set the call returns before the update: the table
    keeps the default bounds of the field. *)
Lemma empty_data_skips_bounds_update :
  let w' := (privatize_enterprise_data [] [u8 "r_and_d_ratio"]
               (u8 "laplace") (Some example_bounds) example_world).2 in
  (example_bounds ≠ ∅
   ∧ example_bounds !! u8 "r_and_d_ratio" = Some (4 # 100000, 3 # 10)%Q
   ∧ w' = example_world
   ∧ field_bounds (self w') !! u8 "r_and_d_ratio" = Some (0, 30)%Q
   ∧ field_bounds (self w') !! u8 "r_and_d_ratio"
     ≠ Some (4 # 100000, 3 # 10)%Q
   ∧ field_sensitivity (self w') !! u8 "r_and_d_ratio" = Some 30%Q).
Proof.
  intros w'.
  split.
  { intros Heq.
    apply (f_equal (λ m : gmap pystr (Q * Q), m !! u8 "r_and_d_ratio"))
      in Heq.
    vm_compute in Heq. discriminate. }
  split; [vm_compute; reflexivity|]. split; [reflexivity|].
  split; [vm_compute; reflexivity|].
  split; [vm_compute; discriminate | vm_compute; reflexivity].
Qed.

(** C5, where the code departs from it. With the revenues [10 ^ 308]
    and [- 10 ^ 308] the range of the column overflows to [inf]. A cell
    generalized to the interval 0-5 is changed, yet its loss is
    [5.0 / inf], the float 0, and the score of the two changed records
    is 0, the score of unchanged data. With an interval whose upper end
    has 400 digits the width is [inf] too, the loss of the cell is
    [inf / inf], and the score is [nan], outside [0, 1]. With a revenue
    beyond the range of the floats, [10 ^ 400], the estimator raises
    [OverflowError] and returns no score. [anonymize] itself meets the
    first case: with a third revenue of 2 and [k = 1] it generalizes the
    2 to its bin of level 1, an interval of width 4, and the loss of
    that changed cell is 0, so that the score of three changed cells is
    two thirds. *)
Theorem information_loss_at_float_extremes :
  let qi := u8 "revenue_2023" in
  let wide := VStr (u8 "0-" ++ replicate 400 57%N) in
  (∃ global_ranges,
     _get_global_ranges example_extremes [qi] = Ok global_ranges
     ∧ global_ranges !! qi = Some (S754_infinity false)
     ∧ py_str (VStr (u8 "0-5")) ≠ py_str (VInt (10 ^ 308))
     ∧ cell_loss global_ranges qi (VInt (10 ^ 308)) (VStr (u8 "0-5"))
       = f64_zero
     ∧ py_str wide ≠ py_str (VInt (10 ^ 308))
     ∧ cell_loss global_ranges qi (VInt (10 ^ 308)) wide = S754_nan)
  ∧ compute_information_loss example_extremes example_intervals [qi]
    = Ok f64_zero
  ∧ compute_information_loss example_extremes example_extremes [qi]
    = Ok f64_zero
  ∧ compute_information_loss example_extremes example_wide_intervals [qi]
    = Ok S754_nan
  ∧ compute_information_loss example_beyond example_intervals [qi]
    = Raise OverflowError
  ∧ (∃ anonymized_data stats global_ranges,
       anonymize 1 example_revenues [qi] None None 3
         = Ok (anonymized_data, Stats stats)
       ∧ (anonymized_data !! 2%nat) ≫= (λ r : row, r !! qi)
         = Some (VStr (u8 "1-5亿"))
       ∧ py_str (VStr (u8 "1-5亿")) ≠ py_str (VInt 2)
       ∧ _get_global_ranges example_revenues [qi] = Ok global_ranges
       ∧ cell_loss global_ranges qi (VInt 2) (VStr (u8 "1-5亿")) = f64_zero
       ∧ information_loss stats = float_of_Q (2 # 3)).
Proof.
  intros qi wide. split.
  - eexists. split; [vm_compute; reflexivity|].
    split; [vm_compute; reflexivity|].
    split; [vm_compute; discriminate|].
    split; [vm_compute; reflexivity|].
    split; [vm_compute; discriminate | vm_compute; reflexivity].
  - do 4 (split; [vm_compute; reflexivity|]).
    eexists _, _, _. split; [vm_compute; reflexivity|].
    split; [vm_compute; reflexivity|].
    split; [vm_compute; discriminate|].
    split; [vm_compute; reflexivity|].
    split; vm_compute; reflexivity.
Qed.


End Examples.

(** * Further properties of the k-anonymity service *)

(** ** Equivalence classes *)

Lemma class_append_members (key : list pystr) (r : row) (cs : classes) :
  concat (map snd (class_append key r cs)) ≡ₚ r :: concat (map snd cs).
Proof.
  induction cs as [|[key' members] cs IH]; simpl; [done|].
  case_bool_decide; simpl.
  - rewrite <- app_assoc. simpl.
    by rewrite <- Permutation_middle.
  - rewrite IH. by rewrite Permutation_middle.
Qed.

Lemma class_append_keys (key : list pystr) (r : row) (cs : classes) :
  map fst (class_append key r cs)
  = if bool_decide (key ∈ map fst cs) then map fst cs
    else map fst cs ++ [key].
Proof.
  induction cs as [|[key' members] cs IH]; simpl; [done|].
  destruct (decide (key' = key)) as [->|Hne].
  - rewrite bool_decide_eq_true_2 by done. simpl.
    rewrite bool_decide_eq_true_2; [done | apply list_elem_of_here].
  - rewrite bool_decide_eq_false_2 by done. simpl. rewrite IH.
    destruct (decide (key ∈ map fst cs)) as [Hin|Hnin].
    + rewrite !bool_decide_eq_true_2; [done | by right | done].
    + rewrite !bool_decide_eq_false_2; [done | | done].
      intros Hin. apply elem_of_cons in Hin as [->|Hin]; done.
Qed.

Section EquivalenceClasses.

Context `{PyRuntime}.

Lemma class_append_key_of_members (qis : list pystr) (r : row)
  (cs : classes) :
  Forall (λ c, c.2 ≠ [] ∧ Forall (λ m, class_key qis m = c.1) c.2) cs →
  Forall (λ c, c.2 ≠ [] ∧ Forall (λ m, class_key qis m = c.1) c.2)
         (class_append (class_key qis r) r cs).
Proof.
  induction cs as [|[key' members] cs IH]; intros Hcs; simpl.
  - repeat constructor. done.
  - inversion Hcs as [|? ? [Hne Hkeys] Hrest]; subst. simpl in *.
    case_bool_decide; constructor; simpl; auto.
    split; [by destruct members|].
    apply Forall_app. split; [done|]. by constructor.
Qed.

(** The members, the keys and the classes of the result of
    [build_equivalence_classes]. *)
Lemma build_equivalence_classes_facts
  (data : list row) (quasi_identifiers : list pystr) :
  let cs := build_equivalence_classes data quasi_identifiers in
  concat (map snd cs) ≡ₚ data
  ∧ NoDup (map fst cs)
  ∧ Forall (λ c, c.2 ≠ []
                 ∧ Forall (λ r, class_key quasi_identifiers r = c.1) c.2)
           cs.
Proof.
  unfold build_equivalence_classes.
  assert (Hgen : ∀ (rest : list row) (cs : classes),
    NoDup (map fst cs) →
    Forall (λ c, c.2 ≠ []
                 ∧ Forall (λ r, class_key quasi_identifiers r = c.1) c.2)
           cs →
    let cs' := foldl (λ cs r, class_append
                                (class_key quasi_identifiers r) r cs)
                     cs rest in
    concat (map snd cs') ≡ₚ concat (map snd cs) ++ rest
    ∧ NoDup (map fst cs')
    ∧ Forall (λ c, c.2 ≠ []
                   ∧ Forall (λ r, class_key quasi_identifiers r = c.1) c.2)
             cs').
  { induction rest as [|r rest IH]; intros cs Hnodup Hkeys; simpl.
    - by rewrite app_nil_r.
    - destruct (IH (class_append (class_key quasi_identifiers r) r cs))
        as (Hperm & Hnodup' & Hkeys').
      + rewrite class_append_keys. case_bool_decide; [done|].
        apply NoDup_app. split; [done|]. split; [|apply NoDup_singleton].
        intros x Hx Hx'. apply list_elem_of_singleton in Hx'. by subst.
      + by apply class_append_key_of_members.
      + split; [|done].
        rewrite Hperm, class_append_members. simpl.
        apply Permutation_middle. }
  destruct (Hgen data [] (NoDup_nil_2) (Forall_nil_2 _)) as (Hp & Hn & Hk).
  done.
Qed.

(** X1. The equivalence classes are a partition of the data: their
    members together are the records of the data, each once; no key
    occurs twice; no class is empty, and the key of a class is the key
    of each of its members. *)
Theorem build_equivalence_classes_partition
  (data : list row) (quasi_identifiers : list pystr) :
  let cs := build_equivalence_classes data quasi_identifiers in
  concat (map snd cs) ≡ₚ data
  ∧ NoDup (map fst cs)
  ∧ Forall (λ c, c.2 ≠ []
                 ∧ Forall (λ r, class_key quasi_identifiers r = c.1) c.2)
           cs.
Proof. apply build_equivalence_classes_facts. Qed.

(** The sizes of the classes add up to the size of the data. *)
Lemma build_equivalence_classes_length
  (data : list row) (quasi_identifiers : list pystr) :
  length (concat (map snd
            (build_equivalence_classes data quasi_identifiers)))
  = length data.
Proof.
  destruct (build_equivalence_classes_facts data quasi_identifiers)
    as [Hperm _].
  by rewrite Hperm.
Qed.

End EquivalenceClasses.

(** ** The verdict of [validate_k_anonymity] *)

Lemma min_list_Z_attained (l : list Z) x : min_list_Z x l ∈ x :: l.
Proof.
  unfold min_list_Z. revert x.
  induction l as [|y l IH]; intros x; simpl; [apply list_elem_of_here|].
  specialize (IH (Z.min x y)).
  apply elem_of_cons in IH as [Heq|Hin].
  - rewrite Heq. destruct (Z.min_spec x y) as [[_ ->] | [_ ->]].
    + apply list_elem_of_here.
    + right. apply list_elem_of_here.
  - right. by right.
Qed.

Lemma filter_length_zero {A} (P : A → Prop) `{∀ x, Decision (P x)}
  (l : list A) :
  length (filter P l) = 0%nat ↔ Forall (λ x, ¬ P x) l.
Proof.
  induction l as [|x l IH]; simpl; [split; [constructor | done]|].
  rewrite filter_cons. case_decide; simpl.
  - split; [done|]. intros Hall. by inversion Hall.
  - rewrite IH. split; [by constructor | by inversion 1].
Qed.

(** X2. On classes that are not empty the flag of [validate_k_anonymity]
    is true exactly when every class has at least [k] members, and
    exactly when the number of violating classes is 0; the reported
    minimum is the size of some class and bounds every size from below. *)
Theorem validate_k_anonymity_verdict (k : Z) (cs : classes) :
  cs ≠ [] →
  ∃ flag m v,
    validate_k_anonymity k cs = (flag, m, v)
    ∧ (flag = true ↔ Forall (λ c, k ≤ Z.of_nat (length c.2)) cs)
    ∧ (flag = true ↔ v = 0)
    ∧ Forall (λ c, m ≤ Z.of_nat (length c.2)) cs
    ∧ Exists (λ c, Z.of_nat (length c.2) = m) cs.
Proof.
  intros Hne. unfold validate_k_anonymity.
  destruct (class_sizes cs) as [|size sizes] eqn:Hsizes.
  { destruct cs; [done | discriminate]. }
  eexists _, _, _. split; [reflexivity|].
  set (m := min_list_Z size sizes).
  assert (Hlow : Forall (λ s, m ≤ s) (class_sizes cs)).
  { rewrite Hsizes. constructor.
    - apply min_list_Z_le_init.
    - apply (min_list_Z_lower_bound sizes size). }
  assert (Hatt : m ∈ class_sizes cs).
  { rewrite Hsizes. apply min_list_Z_attained. }
  assert (Hflag : (k <=? m) = true
                  ↔ Forall (λ s, k ≤ s) (class_sizes cs)).
  { rewrite Z.leb_le. split.
    - intros Hk. eapply Forall_impl; [exact Hlow|].
      intros s Hs. simpl in Hs. lia.
    - intros Hall. rewrite Forall_forall in Hall. by apply Hall. }
  split; [|split; [|split]].
  - rewrite Hflag. unfold class_sizes. by rewrite Forall_map.
  - rewrite Hflag, <- Hsizes. split.
    + intros Hall.
      assert (Hz : length (filter (λ s, s < k) (class_sizes cs)) = 0%nat).
      { apply filter_length_zero. eapply Forall_impl; [exact Hall|].
        intros s Hs. simpl in Hs. lia. }
      lia.
    + intros Hv.
      assert (Hz : length (filter (λ s, s < k) (class_sizes cs)) = 0%nat)
        by lia.
      apply filter_length_zero in Hz. eapply Forall_impl; [exact Hz|].
      intros s Hs. simpl in Hs. lia.
  - unfold class_sizes in Hlow. by rewrite Forall_map in Hlow.
  - unfold class_sizes in Hatt. apply list_elem_of_fmap in Hatt
      as (c & Hc & Hin).
    apply Exists_exists. exists c. split; [done|]. by rewrite Hc.
Qed.

(** ** The records that [anonymize] returns *)

Lemma rmap_length {A B} (f : A → result B) (l : list A) (l' : list B) :
  rmap f l = Ok l' → length l' = length l.
Proof.
  revert l'. induction l as [|x l IH]; intros l' Hrun; simpl in Hrun.
  - by injection Hrun as <-.
  - inv_rbind Hrun. inv_rbind Hrun. injection Hrun as <-.
    simpl. f_equal. by apply IH.
Qed.

Lemma split_classes_length (k : Z) (cs : classes) :
  Nat.add
    (length (concat (map snd
               (filter (λ c, k ≤ Z.of_nat (length c.2)) cs))))
    (length (concat (map snd
               (filter (λ c, Z.of_nat (length c.2) < k) cs))))
  = length (concat (map snd cs)).
Proof.
  induction cs as [|c cs IH]; simpl; [done|].
  rewrite !filter_cons. rewrite length_app, <- IH.
  repeat case_decide; simpl; rewrite ?length_app; lia.
Qed.

Section RecordCount.

Context `{PyRuntime}.

(** [handle_small_classes] returns as many records as the classes
    hold. *)
Lemma handle_small_classes_length (k : Z) (data : list row) (cs : classes)
  (qis : list pystr) (levels : gmap pystr Z) (out : list row) :
  handle_small_classes k data cs qis levels = Ok out →
  length out = length (concat (map snd cs)).
Proof.
  unfold handle_small_classes. intros Hrun.
  rewrite <- (split_classes_length k cs).
  destruct (concat (map snd (filter (λ c, Z.of_nat (length c.2) < k) cs)))
    as [|r invalid] eqn:Hinvalid.
  - injection Hrun as <-. simpl. lia.
  - destruct (k <=? _).
    + inv_rbind Hrun. injection Hrun as <-.
      apply rmap_length in Ha. rewrite length_app, Ha. done.
    + injection Hrun as <-. rewrite length_app. simpl.
      by rewrite length_map.
Qed.

Lemma anonymize_loop_length (k : Z) (n : nat) (iteration : Z)
  (qis : list pystr) (data : list row) (levels : gmap pystr Z)
  out iteration' levels' :
  anonymize_loop k n iteration qis data levels
    = Ok (out, iteration', levels') →
  length out = length data.
Proof.
  revert iteration data levels.
  induction n as [|n IH]; intros iteration data levels Hrun;
    simpl in Hrun.
  - by injection Hrun as <- _ _.
  - inv_rbind Hrun. apply rmap_length in Ha.
    destruct (validate_k_anonymity k _) as [[flag m] v].
    destruct flag.
    + injection Hrun as <- _ _. done.
    + inv_rbind Hrun. apply handle_small_classes_length in Ha0.
      rewrite build_equivalence_classes_length in Ha0.
      apply IH in Hrun. congruence.
Qed.

(** X3. When [anonymize] returns statistics it returns as many records
    as it was given, and the two counts of the statistics are that
    number. *)
Theorem anonymize_keeps_record_count (k : Z)
  (data : list row) (quasi_identifiers : list pystr)
  (sensitive_attributes : option (list pystr))
  (generalization_levels : option (gmap pystr Z)) (max_iterations : Z)
  (anonymized_data : list row) (stats : anonymize_stats) :
  anonymize k data quasi_identifiers sensitive_attributes
            generalization_levels max_iterations
    = Ok (anonymized_data, Stats stats) →
  length anonymized_data = length data
  ∧ original_records stats = Z.of_nat (length data)
  ∧ anonymized_records stats = original_records stats.
Proof.
  unfold anonymize. intros Hrun.
  destruct data as [|first rest]; [discriminate|].
  destruct (filter _ quasi_identifiers); [|discriminate].
  inv_rbind Hrun. destruct a as [[anon iteration] levels].
  apply anonymize_loop_length in Ha.
  destruct (validate_k_anonymity k _) as [[flag m] v].
  inv_rbind Hrun. injection Hrun as <- <-. simpl.
  split; [done|]. split; [done|]. by rewrite Ha.
Qed.

(** X4. [anonymize] answers with an error report exactly when the data
    is empty or the first record lacks one of the quasi-identifiers, and
    then it returns no record; a quasi-identifier missing from a later
    record is no error. *)
Theorem anonymize_error_report (k : Z)
  (data : list row) (quasi_identifiers : list pystr)
  (sensitive_attributes : option (list pystr))
  (generalization_levels : option (gmap pystr Z)) (max_iterations : Z) :
  (data = []
   ∨ (∃ first rest qi, data = first :: rest ∧ qi ∈ quasi_identifiers
                        ∧ first !! qi = None))
  ↔ (∃ msg, anonymize k data quasi_identifiers sensitive_attributes
                      generalization_levels max_iterations
            = Ok ([], ErrorReport msg)).
Proof.
  unfold anonymize. split.
  - intros [-> | (first & rest & qi & -> & Hin & Hmiss)]; [eauto|].
    destruct (filter (λ qi, first !! qi = None) quasi_identifiers)
      as [|qi' l] eqn:Hfilter; [|eauto].
    exfalso. assert (Hqi : qi ∈ filter (λ qi, first !! qi = None)
                                        quasi_identifiers)
      by by apply list_elem_of_filter.
    rewrite Hfilter in Hqi. by apply elem_of_nil in Hqi.
  - intros [msg Hrun]. destruct data as [|first rest]; [by left|].
    right. exists first, rest.
    destruct (filter (λ qi, first !! qi = None) quasi_identifiers)
      as [|qi' l] eqn:Hfilter.
    + inv_rbind Hrun. destruct a as [[anon iteration] levels].
      destruct (validate_k_anonymity k _) as [[flag m] v].
      inv_rbind Hrun. discriminate.
    + exists qi'. split; [done|].
      assert (Hqi : qi' ∈ filter (λ qi, first !! qi = None)
                                  quasi_identifiers)
        by (rewrite Hfilter; apply list_elem_of_here).
      apply list_elem_of_filter in Hqi as [Hmiss Hin]. done.
Qed.

Lemma anonymize_loop_budget (k : Z) (n : nat) (iteration : Z)
  (qis : list pystr) (data : list row) (levels : gmap pystr Z)
  out iteration' levels' :
  anonymize_loop k n iteration qis data levels
    = Ok (out, iteration', levels') →
  iteration ≤ iteration' ≤ iteration + Z.of_nat n
  ∧ levels' = Nat.iter (Z.to_nat (iteration' - iteration))
                       enhance_levels levels.
Proof.
  revert iteration data levels.
  induction n as [|n IH]; intros iteration data levels Hrun;
    simpl in Hrun.
  - injection Hrun as _ <- <-. rewrite Z.sub_diag. simpl. split; [lia|done].
  - inv_rbind Hrun.
    destruct (validate_k_anonymity k _) as [[flag m] v].
    destruct flag.
    + injection Hrun as _ <- <-. rewrite Z.sub_diag. simpl.
      split; [lia|done].
    + inv_rbind Hrun. apply IH in Hrun as [Hbound ->].
      split; [lia|].
      replace (Z.to_nat (iteration' - iteration))
        with (S (Z.to_nat (iteration' - (iteration + 1)))) by lia.
      by rewrite Nat.iter_succ_r.
Qed.

(** X5. The statistic [iterations] lies between 1 and
    [max_iterations + 1], and the final levels are the initial ones
    raised [iterations - 1] times, each time by one and capped at 3. *)
Theorem anonymize_iterations_and_levels (k : Z)
  (data : list row) (quasi_identifiers : list pystr)
  (sensitive_attributes : option (list pystr))
  (generalization_levels : option (gmap pystr Z)) (max_iterations : Z)
  (anonymized_data : list row) (stats : anonymize_stats) :
  anonymize k data quasi_identifiers sensitive_attributes
            generalization_levels max_iterations
    = Ok (anonymized_data, Stats stats) →
  1 ≤ iterations stats ≤ Z.max 0 max_iterations + 1
  ∧ final_generalization_levels stats
    = Nat.iter (Z.to_nat (iterations stats - 1)) enhance_levels
               (initial_levels quasi_identifiers generalization_levels)
  ∧ (1 < iterations stats →
     map_Forall (λ _ level, level ≤ 3)
                (final_generalization_levels stats)).
Proof.
  unfold anonymize. intros Hrun.
  destruct data as [|first rest]; [discriminate|].
  destruct (filter _ quasi_identifiers); [|discriminate].
  inv_rbind Hrun. destruct a as [[anon iteration] levels].
  apply anonymize_loop_budget in Ha as [Hbound Hlevels].
  destruct (validate_k_anonymity k _) as [[flag m] v].
  inv_rbind Hrun. injection Hrun as _ <-. simpl.
  rewrite Z.sub_0_r in Hlevels.
  replace (iteration + 1 - 1) with iteration by lia.
  split; [lia|]. split; [exact Hlevels|].
  intros Hmore. rewrite Hlevels.
  destruct (Z.to_nat iteration) as [|j] eqn:Hj; [lia|].
  simpl. unfold enhance_levels at 1.
  intros field level Hfield. apply lookup_fmap_Some in Hfield
    as (level0 & <- & _). lia.
Qed.

End RecordCount.

(** ** What generalization and suppression touch *)

Section Frames.

Context `{PyRuntime}.

(** The loop body either leaves the copy as it is or stores a value
    under a field that the record has. *)
Lemma generalize_field_shape (record acc acc' : row) levels field :
  generalize_field record acc levels field = Ok acc' →
  acc' = acc ∨ ∃ g, acc' = <[field := g]> acc ∧ is_Some (record !! field).
Proof.
  unfold generalize_field.
  destruct (record !! field) as [v|]; [|intros [= <-]; by left].
  repeat case_bool_decide;
    try (intros Hrun; inv_rbind Hrun; injection Hrun as <-;
         right; eauto);
  destruct (generalize_default _ _); intros [= <-];
    [right; eauto | by left].
Qed.

(** X6. [apply_generalization] returns a record with the fields of the
    record it was given, and with the same value under every field that
    is not a quasi-identifier. *)
Theorem apply_generalization_frame
  (record : row) (quasi_identifiers : list pystr)
  (levels : gmap pystr Z) (generalized : row) :
  apply_generalization record quasi_identifiers levels = Ok generalized →
  dom generalized = dom record
  ∧ (∀ field, field ∉ quasi_identifiers →
              generalized !! field = record !! field).
Proof.
  unfold apply_generalization.
  assert (Hgen : ∀ qis acc out,
    rfold (λ acc f, generalize_field record acc levels f) qis acc = Ok out →
    dom acc = dom record →
    dom out = dom record
    ∧ (∀ field, field ∉ qis → out !! field = acc !! field)).
  { induction qis as [|f qis IH]; intros acc out Hrun Hdom; simpl in Hrun.
    - injection Hrun as <-. done.
    - inv_rbind Hrun.
      destruct (generalize_field_shape _ _ _ _ _ Ha) as [-> | (g & -> & Hf)].
      + destruct (IH acc out Hrun Hdom) as [Hd Hother].
        split; [done|]. intros field Hnot. apply Hother.
        intros Hin. apply Hnot. by right.
      + destruct (IH (<[f:=g]> acc) out Hrun) as [Hd Hother].
        { rewrite dom_insert_L, Hdom. apply subseteq_union_1_L.
          apply singleton_subseteq_l. by apply elem_of_dom. }
        split; [done|]. intros field Hnot.
        rewrite Hother.
        * apply lookup_insert_ne. intros ->. apply Hnot.
          apply list_elem_of_here.
        * intros Hin. apply Hnot. by right. }
  intros Hrun. by apply (Hgen quasi_identifiers record generalized).
Qed.

Lemma suppress_record_lookup (qis : list pystr) (r : row) (field : pystr) :
  suppress_record qis r !! field =
    match r !! field with
    | Some v => if bool_decide (field ∈ qis) then Some (VStr (u8 "*"))
                else Some v
    | None => None
    end.
Proof.
  unfold suppress_record. revert r.
  induction qis as [|qi qis IH]; intros r; cbn [foldl].
  - destruct (r !! field); [|done].
    rewrite bool_decide_eq_false_2; [done | apply not_elem_of_nil].
  - rewrite IH. clear IH.
    destruct (decide (qi = field)) as [->|Hne].
    + destruct (r !! field) as [v|] eqn:Hr.
      * rewrite lookup_insert_eq.
        rewrite (bool_decide_eq_true_2 (field ∈ field :: qis))
          by apply list_elem_of_here.
        by case_bool_decide.
      * by rewrite Hr.
    + assert (Hlook : (match r !! qi with
                       | Some v =>
                         <[qi:=VStr (suppress_enterprise_info v)]> r
                       | None => r
                       end) !! field = r !! field).
      { destruct (r !! qi); [by rewrite lookup_insert_ne | done]. }
      rewrite Hlook. destruct (r !! field); [|done].
      destruct (decide (field ∈ qis)) as [Hin|Hnin].
      * rewrite !bool_decide_eq_true_2; [done | by right | done].
      * rewrite !bool_decide_eq_false_2; [done | | done].
        intros Hin. apply elem_of_cons in Hin as [->|Hin]; done.
Qed.

(** X7. Suppression puts the mask under every quasi-identifier that the
    record has and changes nothing else; the key of a suppressed record
    is the mask for each quasi-identifier it has and the empty string for
    each one it lacks, so all suppressed records that have every
    quasi-identifier fall into one class. *)
Theorem suppress_record_spec (quasi_identifiers : list pystr) (r : row) :
  (∀ field,
     suppress_record quasi_identifiers r !! field =
       match r !! field with
       | Some v => if bool_decide (field ∈ quasi_identifiers)
                   then Some (VStr (u8 "*")) else Some v
       | None => None
       end)
  ∧ class_key quasi_identifiers (suppress_record quasi_identifiers r)
    = map (λ qi, if bool_decide (is_Some (r !! qi)) then u8 "*" else u8 "")
          quasi_identifiers.
Proof.
  split; [apply suppress_record_lookup|].
  unfold class_key. apply map_ext_in. intros qi Hin.
  apply list_elem_of_In in Hin.
  rewrite suppress_record_lookup.
  destruct (r !! qi) as [v|].
  - rewrite bool_decide_eq_true_2 by done.
    by rewrite bool_decide_eq_true_2 by eauto.
  - rewrite bool_decide_eq_false_2; [done|]. by intros [? ?].
Qed.

End Frames.

(** ** The categorical routines *)

Lemma table_get_Some_elem {A} (key : pystr) (d : list (pystr * A)) v :
  table_get key d = Some v → (key, v) ∈ d.
Proof.
  induction d as [|[k' v'] d IH]; simpl; [discriminate|].
  case_bool_decide as Hk.
  - intros [= ->]. subst. apply list_elem_of_here.
  - intros Hget. right. by apply IH.
Qed.

Lemma starts_with_app_l (a b s : pystr) :
  starts_with (a ++ b) s = true → starts_with a s = true.
Proof.
  revert s. induction a as [|x a IH]; intros s; simpl; [done|].
  destruct s as [|y s]; [done|].
  rewrite !andb_true_iff. intros [Hxy Hrest]. split; [done|]. by apply IH.
Qed.

Lemma str_contains_app_l (a b s : pystr) :
  str_contains (a ++ b) s = true → str_contains a s = true.
Proof.
  induction s as [|y s IH]; simpl; rewrite !orb_true_iff.
  - intros [Hs|Hf]; [|done]. left. by eapply starts_with_app_l.
  - intros [Hs|Hrest]; [left; by eapply starts_with_app_l|].
    right. by apply IH.
Qed.

Section CategoricalRoutines.

Context `{PyRuntime}.

Lemma region_of_Some (hierarchy : list (pystr * list pystr))
  (province region : pystr) :
  region_of hierarchy province = Some region →
  ∃ provinces, (region, provinces) ∈ hierarchy ∧ province ∈ provinces.
Proof.
  induction hierarchy as [|[r ps] hierarchy IH]; simpl; [discriminate|].
  case_bool_decide as Hin.
  - intros [= <-]. exists ps. split; [apply list_elem_of_here | done].
  - intros Hrest. destruct (IH Hrest) as (ps' & Hel & Hp).
    exists ps'. split; [by right | done].
Qed.

(** Every province of the city table lies in a region of the region
    table, and neither table holds the name of the root. *)
Lemma city_table_consistent :
  Forall (λ p : pystr * pystr,
            is_Some (region_of region_hierarchy p.2)
            ∧ p.2 ≠ u8 "中国" ∧ p.2 ≠ [])
         _build_city_mapping
  ∧ Forall (λ p : pystr * list pystr, p.1 ≠ u8 "中国") region_hierarchy.
Proof.
  split.
  - refine (bool_decide_unpack _ _). vm_compute. exact I.
  - refine (bool_decide_unpack _ _). vm_compute. exact I.
Qed.

(** X10. On a string [generalize_headquarters] never raises. At level 2
    a city of the table gives its province and at level 3 the region
    that holds this province; the fallback to the root, the string
    for China, is never taken, and no level other than 1 returns it. A
    city that is not in the table gives the other-region label at every
    level other than 1. *)
Theorem generalize_headquarters_on_strings (s : pystr) (level : Z) :
  ∃ label,
    generalize_headquarters (VStr s) level = Ok (VStr label)
    ∧ (level ≠ 1 → label ≠ u8 "中国")
    ∧ (s ≠ [] → level ≠ 1 →
       table_get (strip s) _build_city_mapping = None →
       label = u8 "其他地区")
    ∧ (∀ province,
         s ≠ [] → table_get (strip s) _build_city_mapping = Some province →
         (level = 2 → label = province)
         ∧ (level = 3 →
            ∃ provinces, (label, provinces) ∈ region_hierarchy
                         ∧ province ∈ provinces)).
Proof.
  destruct city_table_consistent as [Hcity Hregion].
  rewrite Forall_forall in Hcity. rewrite Forall_forall in Hregion.
  unfold generalize_headquarters.
  destruct s as [|c s].
  { simpl. eexists. split; [reflexivity|].
    split; [intros _; vm_compute; discriminate|].
    split; [done|]. intros province Hne. done. }
  cbn [truthy negb]. rewrite bool_decide_eq_false_2 by done. cbn [negb].
  destruct (level =? 1) eqn:H1.
  { apply Z.eqb_eq in H1. eexists. split; [reflexivity|].
    split; [done|]. split; [done|]. intros province _ _. split; lia. }
  apply Z.eqb_neq in H1.
  destruct (table_get (strip (c :: s)) _build_city_mapping)
    as [province|] eqn:Hget.
  - apply table_get_Some_elem in Hget.
    destruct (Hcity _ Hget) as ([region Hreg] & Hroot & Hnonempty).
    cbn [snd] in Hreg, Hroot, Hnonempty.
    cbn [truthy]. rewrite bool_decide_eq_false_2 by done. cbn [negb].
    destruct (level =? 2) eqn:H2.
    { apply Z.eqb_eq in H2. eexists. split; [reflexivity|].
      split; [done|]. split; [done|].
      intros province' _ [= <-]. split; [done | lia]. }
    apply Z.eqb_neq in H2.
    destruct (level =? 3) eqn:H3.
    + rewrite Hreg. eexists. split; [reflexivity|].
      destruct (region_of_Some _ _ _ Hreg) as (ps & Hel & Hp).
      split; [intros _; by apply (Hregion _ Hel)|].
      split; [done|].
      intros province' _ [= <-]. split; [lia|]. eauto.
    + apply Z.eqb_neq in H3. eexists. split; [reflexivity|].
      split; [intros _; vm_compute; discriminate|].
      split; [done|]. intros province' _ _. split; lia.
  - eexists. split; [reflexivity|].
    split; [intros _; vm_compute; discriminate|].
    split; [done|]. intros province _ Hsome. discriminate.
Qed.

Lemma chain_category_Some (hierarchy : list (pystr * list pystr))
  (stage category : pystr) :
  chain_category hierarchy stage = Some category →
  ∃ stages s, (category, stages) ∈ hierarchy ∧ s ∈ stages
              ∧ str_contains s stage = true.
Proof.
  induction hierarchy as [|[cat stages] hierarchy IH]; simpl;
    [discriminate|].
  destruct (existsb _ stages) eqn:Hex.
  - intros [= <-]. apply existsb_exists in Hex as (s & Hin & Hs).
    exists stages, s. split; [apply list_elem_of_here|].
    split; [by apply list_elem_of_In | done].
  - intros Hrest. destruct (IH Hrest) as (stages' & s & Hel & Hin & Hs).
    exists stages', s. split; [by right | done].
Qed.

(** Each stage name of the hierarchy starts with its category. *)
Lemma chain_hierarchy_prefixes :
  Forall (λ p : pystr * list pystr,
            p.1 ∈ map u8 ["上游"; "中游"; "下游"]%string
            ∧ Forall (λ s, ∃ suffix, s = p.1 ++ suffix) p.2)
         chain_hierarchy.
Proof.
  unfold chain_hierarchy.
  repeat constructor; simpl;
    try (eexists; vm_compute; reflexivity);
    try (refine (bool_decide_unpack _ _); vm_compute; exact I).
Qed.

(** X11. At level 2 [generalize_chain_stage] maps a stage that is a
    non-empty string to one of the three categories, and then the name
    of the category occurs in the stage, or it returns the stage as it
    is, and then none of the three names occurs in it. *)
Theorem generalize_chain_stage_level_2 (s : pystr) :
  s ≠ [] →
  ∃ label,
    generalize_chain_stage (VStr s) 2 = Ok (VStr label)
    ∧ ((label ∈ map u8 ["上游"; "中游"; "下游"]%string
        ∧ str_contains label s = true)
       ∨ (label = s
          ∧ Forall (λ category, str_contains category s = false)
                   (map u8 ["上游"; "中游"; "下游"]%string))).
Proof.
  intros Hne. unfold generalize_chain_stage.
  cbn [truthy negb]. rewrite bool_decide_eq_false_2 by done. cbn [negb].
  change (2 =? 1) with false. change (2 =? 2) with true. cbv iota.
  destruct (chain_category chain_hierarchy s) as [category|] eqn:Hcat.
  - eexists. split; [reflexivity|]. left.
    apply chain_category_Some in Hcat as (stages & st & Hel & Hin & Hst).
    pose proof chain_hierarchy_prefixes as Hpre.
    rewrite Forall_forall in Hpre.
    destruct (Hpre _ Hel) as [Hthree Hstages]. simpl in *.
    split; [done|].
    rewrite Forall_forall in Hstages.
    destruct (Hstages _ Hin) as [suffix ->].
    by eapply str_contains_app_l.
  - destruct (str_contains (u8 "上游") s) eqn:Hup.
    { eexists. split; [reflexivity|]. left. split; [|done].
      simpl. apply list_elem_of_here. }
    destruct (str_contains (u8 "中游") s) eqn:Hmid.
    { eexists. split; [reflexivity|]. left. split; [|done].
      simpl. right. apply list_elem_of_here. }
    destruct (str_contains (u8 "下游") s) eqn:Hdown.
    { eexists. split; [reflexivity|]. left. split; [|done].
      simpl. right. right. apply list_elem_of_here. }
    eexists. split; [reflexivity|]. right. split; [done|].
    simpl. repeat constructor; done.
Qed.

End CategoricalRoutines.

(** ** The risk report *)

Section RiskReport.

Context `{PyRuntime}.

Lemma risk_fold (attr : pystr) (cs : classes)
  (acc : Z * list high_risk_class * list Z) :
  foldl (risk_step attr) acc cs =
    (acc.1.1
     + Z.of_nat (length (filter
         (λ c, Z.of_nat (size (sensitive_values attr c.2)) = 1) cs)),
     acc.1.2
     ++ map (λ c, {| risk_class_key := c.1;
                     risk_size := Z.of_nat (length c.2);
                     risk_sensitive_diversity := 1 |})
            (filter (λ c, Z.of_nat (size (sensitive_values attr c.2)) = 1)
                    cs),
     acc.2
     ++ map (λ c, Z.of_nat (size (sensitive_values attr c.2))) cs).
Proof.
  revert acc. induction cs as [|c cs IH]; intros [[unique high] scores].
  - simpl. by rewrite Z.add_0_r, !app_nil_r.
  - cbn [foldl]. rewrite IH. rewrite filter_cons.
    unfold risk_step at 1 2 3.
    destruct (Z.of_nat (size (sensitive_values attr c.2)) =? 1) eqn:Hd.
    + apply Z.eqb_eq in Hd. rewrite decide_True by done. simpl.
      rewrite <- !app_assoc. simpl. rewrite Hd.
      apply (f_equal2 pair); [apply (f_equal2 pair); [lia|done]|done].
    + apply Z.eqb_neq in Hd. rewrite decide_False by done. simpl.
      by rewrite <- !app_assoc.
Qed.

Lemma risk_levels_distinct :
  u8 "中风险" ≠ u8 "低风险" ∧ u8 "高风险" ≠ u8 "低风险"
  ∧ u8 "低风险" ≠ u8 "高风险" ∧ u8 "中风险" ≠ u8 "高风险".
Proof. repeat split; vm_compute; discriminate. Qed.

(** X12. The report of [evaluate_privacy_risk] lists as high-risk
    exactly the classes whose members show one single value of the
    sensitive attribute, in the order of the classes, and counts them.
    The level is the low one exactly when there is no such class, also
    when there is no class at all, and the high one exactly when there is
    one and they are at least three tenths of the classes. *)
Theorem evaluate_privacy_risk_report (cs : classes) (attr : pystr) :
  let report := evaluate_privacy_risk cs attr in
  let unique :=
    filter (λ c, Z.of_nat (size (sensitive_values attr c.2)) = 1) cs in
  high_risk_classes report
    = map (λ c, {| risk_class_key := c.1;
                   risk_size := Z.of_nat (length c.2);
                   risk_sensitive_diversity := 1 |}) unique
  ∧ classes_with_unique_sensitive report = Z.of_nat (length unique)
  ∧ total_classes report = Z.of_nat (length cs)
  ∧ (risk_level report = u8 "低风险" ↔ unique = [])
  ∧ (risk_level report = u8 "高风险"
     ↔ unique ≠ []
       ∧ 3 * Z.of_nat (length cs) ≤ 10 * Z.of_nat (length unique)).
Proof.
  intros report unique. unfold report, evaluate_privacy_risk.
  rewrite risk_fold. fold unique. simpl. rewrite !Z.add_0_l.
  split; [done|]. split; [done|]. split; [done|].
  assert (Hlen : Z.of_nat (length unique) = 0 ↔ unique = []).
  { destruct unique; simpl; split; try done; lia. }
  destruct risk_levels_distinct as (Hml & Hhl & Hlh & Hmh).
  clearbody unique.
  destruct (Z.of_nat (length unique) =? 0) eqn:Hz.
  - apply Z.eqb_eq in Hz. apply Hlen in Hz. split.
    + split; [intros _; exact Hz | reflexivity].
    + split; [intros Heq; by destruct Hlh|]. by intros [? _].
  - apply Z.eqb_neq in Hz.
    assert (Hne : unique ≠ []) by (intros Heq; by apply Hz, Hlen).
    destruct (qlt _ _) eqn:Hlt.
    + apply qlt_spec in Hlt. split.
      * split; [intros Heq; by destruct Hml | done].
      * split; [intros Heq; by destruct Hmh|]. intros [_ Hmany].
        exfalso. rewrite Zle_Qle in Hmany.
        rewrite !inject_Z_mult in Hmany.
        change (inject_Z 3) with 3%Q in Hmany.
        change (inject_Z 10) with 10%Q in Hmany. lra.
    + apply qlt_false in Hlt. split.
      * split; [intros Heq; by destruct Hhl | done].
      * split; [|reflexivity]. intros _. split; [done|].
        rewrite Zle_Qle, !inject_Z_mult.
        change (inject_Z 3) with 3%Q. change (inject_Z 10) with 10%Q. lra.
Qed.

End RiskReport.

(** * Further properties of the differential-privacy service *)

(** ** Queries on data without a value *)

Lemma filter_sublist_Forall {A} (P Q : A → Prop) `{∀ x, Decision (P x)}
  (l : list A) :
  Forall Q l → Forall Q (filter P l).
Proof.
  induction 1 as [|x l Hx Hl IH]; [constructor|].
  rewrite filter_cons. case_decide; [by constructor | done].
Qed.

Section QueriesWithoutData.

Context `{PyRuntime} `{NoiseRuntime}.

Lemma apply_filter_Forall (Q : row → Prop) (data : list row)
  (filter_condition : option (gmap pystr value)) :
  Forall Q data → Forall Q (apply_filter data filter_condition).
Proof.
  intros Hall. unfold apply_filter.
  destruct filter_condition as [fc|]; [|done].
  case_bool_decide; [done|]. by apply filter_sublist_Forall.
Qed.

Lemma field_values_none (data : list row) (field : pystr) :
  Forall (λ r : row, r !! field = None ∨ r !! field = Some VNone) data →
  field_values data field = Ok [] ∧ raw_values data field = [].
Proof.
  unfold field_values, raw_values.
  induction 1 as [|r l [Hr|Hr] Hl [IH1 IH2]]; [done| |];
    simpl; rewrite Hr; simpl; by split.
Qed.

(** X13. When no record has a value other than [None] under the field,
    in particular on empty data, the sum, average, percentile and
    histogram queries return the marker of missing data with an empty or
    zero result, make no draw and leave the instance as it is, whatever
    the mechanism name. *)
Theorem queries_without_valid_data
  (data : list row) (field : pystr)
  (filter_condition : option (gmap pystr value)) (percentiles : list Q)
  (bins : option (list value)) (mechanism : pystr) (w : world) :
  Forall (λ r : row, r !! field = None ∨ r !! field = Some VNone) data →
  query_sum data field filter_condition mechanism w
    = (Ok (0%Q, QueryError (u8 "No valid data")), w)
  ∧ query_average data field filter_condition mechanism w
    = (Ok (0%Q, QueryError (u8 "No valid data")), w)
  ∧ query_percentile data field percentiles mechanism w
    = (Ok ([], QueryError (u8 "No valid data")), w)
  ∧ query_histogram data field bins mechanism w
    = (Ok ([], QueryError (u8 "No valid data")), w).
Proof.
  intros Hdata.
  destruct (field_values_none
              (apply_filter data filter_condition) field
              (apply_filter_Forall _ data filter_condition Hdata))
    as [Hfiltered _].
  destruct (field_values_none data field Hdata) as [Hvalues Hraw].
  unfold query_sum, query_average, query_percentile, query_histogram.
  rewrite Hfiltered, Hvalues, Hraw. done.
Qed.

(** ** Clipping of the noised fields *)

Lemma add_noise_to_field_within (v : Q) (field mechanism : pystr)
  (w w' : world) (x : option Q) :
  add_noise_to_field (Some v) field mechanism w = (Ok x, w') →
  self w' = self w
  ∧ ∃ y, x = Some y
         ∧ (∀ lo hi, field_bounds (self w) !! field = Some (lo, hi) →
                     (lo <= hi)%Q → within lo hi y).
Proof.
  intros Hrun.
  pose proof (keeps_self_Ok _ _ _ _
                (keeps_self_add_noise_to_field (Some v) field mechanism)
                Hrun) as Hself.
  split; [exact Hself|].
  unfold add_noise_to_field in Hrun.
  inv_get Hrun.
  apply bind_Ok in Hrun as (noisy & w1 & Hnoise & Hrun).
  assert (Hkeep : self w1 = self w).
  { repeat case_bool_decide.
    - eapply keeps_self_Ok;
        [apply keeps_self_laplace_mechanism | exact Hnoise].
    - eapply keeps_self_Ok;
        [apply keeps_self_gaussian_mechanism | exact Hnoise].
    - unfold raise in Hnoise. discriminate. }
  inv_get Hrun. rewrite Hkeep in Hrun.
  destruct (field_bounds (self w) !! field) as [[lo hi]|] eqn:Hb;
    unfold ret in Hrun; injection Hrun as <- _.
  - eexists. split; [reflexivity|].
    intros lo' hi' [= <- <-] Hle. by apply clip_within.
  - eexists. split; [reflexivity|]. intros lo hi Hsome. discriminate.
Qed.

(** X14. [add_noise_to_field] passes [None] through without a draw; for
    a number it returns a number, and when the field has bounds
    [(lo, hi)] with [lo <= hi] in the table, the number lies in
    [[lo, hi]]. *)
Theorem add_noise_to_field_clipped
  (field mechanism : pystr) (w : world) :
  add_noise_to_field None field mechanism w = (Ok None, w)
  ∧ (∀ v x w',
       add_noise_to_field (Some v) field mechanism w = (Ok x, w') →
       ∃ y, x = Some y
            ∧ (∀ lo hi, field_bounds (self w) !! field = Some (lo, hi) →
                        (lo <= hi)%Q → within lo hi y)).
Proof.
  split; [reflexivity|]. intros v x w' Hrun.
  by destruct (add_noise_to_field_within v field mechanism w w' x Hrun).
Qed.

End QueriesWithoutData.

(** ** The records returned by [privatize_enterprise_data] *)

Lemma mfold_prefix_invariant {A B} (P : list A → B → Prop)
  (S : world → Prop) (f : B → A → M B) (l : list A) :
  (∀ done b a w b' w',
     P done b → S w → f b a w = (Ok b', w') → P (done ++ [a]) b' ∧ S w') →
  ∀ done acc w r w',
    P done acc → S w → mfold f l acc w = (Ok r, w') →
    P (done ++ l) r ∧ S w'.
Proof.
  intros Hstep.
  induction l as [|x l IH]; intros done acc w r w' Hacc Hw Hrun;
    simpl in Hrun.
  - unfold ret in Hrun. injection Hrun as <- <-. by rewrite app_nil_r.
  - apply bind_Ok in Hrun as (b & w1 & Hb & Hrun).
    destruct (Hstep done acc x w b w1 Hacc Hw Hb) as [Hb' Hw1].
    replace (done ++ x :: l) with ((done ++ [x]) ++ l)
      by (by rewrite <- app_assoc).
    by apply (IH (done ++ [x]) b w1 r w').
Qed.

Lemma noised_copy_start (s : DifferentialPrivacyService) (record : row) :
  noised_copy s [] record record.
Proof.
  intros field. split; [done|]. intros v Hin. by apply elem_of_nil in Hin.
Qed.

Lemma noised_copy_skip (s : DifferentialPrivacyService)
  (done : list pystr) (record private_record : row) (field : pystr) :
  noised_copy s done record private_record →
  record !! field = None ∨ record !! field = Some VNone →
  noised_copy s (done ++ [field]) record private_record.
Proof.
  intros Hinv Hskip f. destruct (Hinv f) as [H1 H2]. split.
  - intros [Hf|Hf]; apply H1; [left|by right].
    intros Hin. apply Hf. apply elem_of_app. by left.
  - intros v Hf Hv Hne. apply elem_of_app in Hf as [Hf|Hf].
    + by apply (H2 v).
    + apply list_elem_of_singleton in Hf as ->.
      destruct Hskip; congruence.
Qed.

Lemma noised_copy_insert (s : DifferentialPrivacyService)
  (done : list pystr) (record private_record : row) (field : pystr)
  (v : value) (q : Q) :
  noised_copy s done record private_record →
  record !! field = Some v → v ≠ VNone →
  (∀ lo hi, field_bounds s !! field = Some (lo, hi) →
            (lo <= hi)%Q → within lo hi q) →
  noised_copy s (done ++ [field]) record
              (<[field := VFloat q]> private_record).
Proof.
  intros Hinv Hv Hne Hq f. destruct (decide (f = field)) as [->|Hf].
  - split.
    + intros [Hn|[Hn|Hn]]; [|congruence|congruence].
      exfalso. apply Hn. apply elem_of_app. right.
      by apply list_elem_of_singleton.
    + intros v' _ _ _. exists q. by rewrite lookup_insert_eq.
  - destruct (Hinv f) as [H1 H2]. rewrite lookup_insert_ne by done. split.
    + intros [Hn|Hn]; apply H1; [left|by right].
      intros Hin. apply Hn. apply elem_of_app. by left.
    + intros v' Hin. apply H2. apply elem_of_app in Hin as [Hin|Hin];
        [done|]. by apply list_elem_of_singleton in Hin.
Qed.

Section PrivatizedRecords.

Context `{PyRuntime} `{NoiseRuntime}.

Lemma privatize_field_step (s : DifferentialPrivacyService)
  (record : row) (mechanism : pystr) (done : list pystr)
  (acc acc' : row * gmap pystr (list change)) (field : pystr)
  (w w' : world) :
  noised_copy s done record acc.1 → self w = s →
  privatize_field record mechanism acc field w = (Ok acc', w') →
  noised_copy s (done ++ [field]) record acc'.1 ∧ self w' = s.
Proof.
  intros Hinv Hs Hrun. destruct acc as [private_record field_changes].
  unfold privatize_field in Hrun.
  destruct (record !! field) as [[|z|q|str]|] eqn:Hv.
  1, 5: unfold ret in Hrun; injection Hrun as <- <-;
    split; [apply noised_copy_skip; auto | done].
  all: apply bind_Ok in Hrun as (x & w1 & Hx & Hrun);
    unfold lift in Hx; injection Hx as Hx <-;
    apply bind_Ok in Hrun as (y & w2 & Hy & Hrun);
    apply add_noise_to_field_within in Hy as (Hself & q' & -> & Hq);
    unfold ret in Hrun; injection Hrun as <- <-;
    (split; [|congruence]);
    eapply noised_copy_insert; [exact Hinv | exact Hv | done |];
    by rewrite <- Hs.
Qed.

(** X16. When [privatize_enterprise_data] returns, it returns as many
    records as it was given, in the same order, and the record at each
    position is the given one with nothing but noise added: fields
    outside [numeric_fields], missing fields and fields holding [None]
    are untouched, and every other field of [numeric_fields] holds a
    float within the bounds that the instance has for the field after
    the call. *)
Theorem privatize_enterprise_data_frame
  (data : list row) (numeric_fields : list pystr) (mechanism : pystr)
  (custom_bounds : option (gmap pystr (Q * Q)))
  (w w' : world) (privatized_data : list row) (stats : privatize_report) :
  privatize_enterprise_data data numeric_fields mechanism custom_bounds w
    = (Ok (privatized_data, stats), w') →
  length privatized_data = length data
  ∧ ∀ i record private_record,
      data !! i = Some record →
      privatized_data !! i = Some private_record →
      noised_copy (self w') numeric_fields record private_record.
Proof.
  intros Hrun.
  cut (Forall2 (noised_copy (self w') numeric_fields) data privatized_data).
  { intros Hall. split; [symmetry; by eapply Forall2_length|].
    intros i record private_record Hi Ho.
    by eapply Forall2_lookup_lr. }
  unfold privatize_enterprise_data in Hrun.
  destruct data as [|record0 data0]; [|set (data := record0 :: data0) in *].
  { unfold ret in Hrun. injection Hrun as <- _ _. constructor. }
  apply bind_Ok in Hrun as ([] & w0 & _ & Hrun).
  apply bind_Ok in Hrun as ([out fc] & w1 & Hloop & Hrun).
  inv_get Hrun. unfold ret in Hrun. injection Hrun as <- _ <-.
  clearbody data.
  eapply (mfold_prefix_invariant
            (λ done (acc : list row * gmap pystr (list change)),
               Forall2 (noised_copy (self w0) numeric_fields) done acc.1)
            (λ w, self w = self w0)) with (done := [])
    in Hloop as [Hall Hself].
  - rewrite Hself. exact Hall.
  - clear. intros done [out fc] record w b' w' Hpre Hw Hstep.
    apply bind_Ok in Hstep as ([private_record fc'] & w2 & Hinner & Hstep).
    unfold ret in Hstep. injection Hstep as <- <-.
    eapply (mfold_prefix_invariant
              (λ fields (acc : row * gmap pystr (list change)),
                 noised_copy (self w0) fields record acc.1)
              (λ w, self w = self w0)) with (done := [])
      in Hinner as [Hcopy Hself].
    + split; [|exact Hself]. simpl.
      apply Forall2_app; [exact Hpre|]. constructor; [|constructor].
      exact Hcopy.
    + intros fields acc field wa acc' wb Hacc Hwa Hfield.
      by eapply privatize_field_step.
    + apply noised_copy_start.
    + exact Hw.
  - constructor.
  - reflexivity.
Qed.

End PrivatizedRecords.

(** ** The histogram *)

Lemma vdict_set_keys {A} (key : value) (v : A) (d : list (value * A)) :
  map fst (vdict_set key v d)
  = if existsb (λ x, py_eq x key) (map fst d) then map fst d
    else map fst d ++ [key].
Proof.
  induction d as [|[k' v'] d IH]; simpl; [done|].
  destruct (py_eq k' key) eqn:E; simpl; [done|].
  rewrite IH. by destruct (existsb _ _).
Qed.

Lemma vdict_get_Some_keys {A} (key : value) (d : list (value * A)) c :
  vdict_get key d = Some c →
  existsb (λ x, py_eq x key) (map fst d) = true.
Proof.
  induction d as [|[k' v'] d IH]; simpl; [done|].
  destruct (py_eq k' key); [done|]. exact IH.
Qed.

Lemma vdict_set_Forall_values {A} (P : A → Prop) (key : value) (v : A)
  (d : list (value * A)) :
  Forall (λ p, P p.2) d → P v → Forall (λ p, P p.2) (vdict_set key v d).
Proof.
  intros Hd Hv. induction Hd as [|[k' v'] d Hhead Htail IH]; simpl.
  - by constructor.
  - destruct (py_eq k' key); constructor; auto.
Qed.

Lemma true_histogram_keys (bins values : list value) :
  map fst (true_histogram bins values) = py_set bins.
Proof.
  unfold true_histogram, py_set.
  assert (Hcount : ∀ d : list (value * Z),
    map fst (foldl (λ d v, match vdict_get v d with
                           | Some count => vdict_set v (count + 1) d
                           | None => d
                           end) d values) = map fst d).
  { induction values as [|v values IH]; intros d; simpl; [done|].
    rewrite IH. destruct (vdict_get v d) as [c|] eqn:E; [|done].
    by rewrite vdict_set_keys, (vdict_get_Some_keys _ _ _ E). }
  rewrite Hcount.
  assert (Hbins : ∀ d : list (value * Z),
    map fst (foldl (λ d bin_val, vdict_set bin_val 0 d) d bins)
    = foldl (λ seen v, if existsb (λ x, py_eq x v) seen then seen
                       else seen ++ [v]) (map fst d) bins).
  { induction bins as [|b bins IH]; intros d; simpl; [done|].
    by rewrite IH, vdict_set_keys. }
  apply Hbins.
Qed.

Lemma distinct_snoc (seen : list value) (v : value) :
  ForallOrdPairs (λ x y, py_eq x y = false) seen →
  existsb (λ x, py_eq x v) seen = false →
  ForallOrdPairs (λ x y, py_eq x y = false) (seen ++ [v]).
Proof.
  induction 1 as [|a l Ha Hl IH]; simpl; intros Hex.
  - repeat constructor.
  - apply orb_false_elim in Hex as [Hav Hex]. constructor; [|by apply IH].
    apply Forall_app. split; [done|]. by repeat constructor.
Qed.

Lemma py_set_distinct (l : list value) :
  ForallOrdPairs (λ x y, py_eq x y = false) (py_set l).
Proof.
  unfold py_set.
  cut (∀ seen,
         ForallOrdPairs (λ x y, py_eq x y = false) seen →
         ForallOrdPairs (λ x y, py_eq x y = false)
           (foldl (λ seen v, if existsb (λ x, py_eq x v) seen then seen
                             else seen ++ [v]) seen l)).
  { intros Hall. apply Hall. constructor. }
  induction l as [|v l IH]; intros seen Hseen; simpl; [done|].
  apply IH. destruct (existsb _ seen) eqn:E; [done|].
  by apply distinct_snoc.
Qed.

Lemma py_set_of_distinct (s acc : list value) :
  ForallOrdPairs (λ x y, py_eq x y = false) s →
  Forall (λ x, Forall (λ y, py_eq x y = false) s) acc →
  foldl (λ seen v, if existsb (λ x, py_eq x v) seen then seen
                   else seen ++ [v]) acc s = acc ++ s.
Proof.
  revert acc.
  induction s as [|y s IH]; intros acc Hd Hacc; simpl;
    [by rewrite app_nil_r|].
  inversion Hd as [|? ? Hy Hs]; subst.
  assert (Hex : existsb (λ x, py_eq x y) acc = false).
  { clear -Hacc. induction Hacc as [|x acc Hx Hacc IHacc]; simpl; [done|].
    inversion Hx as [|? ? Hxy _]; subst. by rewrite Hxy. }
  rewrite Hex, IH; [by rewrite <- app_assoc | done |].
  apply Forall_app. split.
  - eapply Forall_impl; [exact Hacc|]. intros x Hx. by inversion Hx.
  - by repeat constructor.
Qed.

Lemma foldl_add_shift (l : list Z) (a x : Z) :
  foldl Z.add (a + x) l = foldl Z.add a l + x.
Proof.
  revert a. induction l as [|y l IH]; intros a; simpl; [done|].
  rewrite <- IH. f_equal. lia.
Qed.

Lemma vdict_set_sum (key : value) (c c' : Z) (d : list (value * Z)) a :
  vdict_get key d = Some c →
  foldl Z.add a (map snd (vdict_set key c' d))
  = foldl Z.add a (map snd d) + (c' - c).
Proof.
  revert a. induction d as [|[k v] d IH]; intros a Hget; simpl in *;
    [done|].
  destruct (py_eq k key); simpl.
  - injection Hget as ->. rewrite <- foldl_add_shift. f_equal. lia.
  - by apply IH.
Qed.

Lemma zero_counts_sum (d : list (value * Z)) a :
  Forall (λ p, p.2 = 0) d → foldl Z.add a (map snd d) = a.
Proof.
  intros Hd. revert a.
  induction Hd as [|[k v] d Hv Hd IH]; intros a; simpl in *; [done|].
  subst v. rewrite IH. lia.
Qed.

Lemma true_histogram_total (bins values : list value) :
  0 ≤ foldl Z.add 0 (map snd (true_histogram bins values))
    ≤ Z.of_nat (length values).
Proof.
  unfold true_histogram.
  set (d0 := foldl (λ d bin_val, vdict_set bin_val 0 d) [] bins).
  assert (Hzero : foldl Z.add 0 (map snd d0) = 0).
  { apply zero_counts_sum. unfold d0.
    cut (∀ d : list (value * Z),
           Forall (λ p, p.2 = 0) d →
           Forall (λ p, p.2 = 0)
                  (foldl (λ d bin_val, vdict_set bin_val 0 d) d bins)).
    { intros Hall. apply Hall. constructor. }
    induction bins as [|b bins IH]; intros d Hd; simpl; [done|].
    apply IH. by apply (vdict_set_Forall_values (λ c, c = 0)). }
  rewrite <- Hzero at 1.
  replace (Z.of_nat (length values))
    with (foldl Z.add 0 (map snd d0) + Z.of_nat (length values)) by lia.
  clearbody d0. clear Hzero. revert d0.
  induction values as [|v values IH]; intros d; simpl foldl; [simpl; lia|].
  destruct (vdict_get v d) as [c|] eqn:E.
  - specialize (IH (vdict_set v (c + 1) d)).
    rewrite (vdict_set_sum _ _ _ _ _ E) in IH. simpl length. lia.
  - specialize (IH d). simpl length. lia.
Qed.

Lemma mfold_vdict_set
  (f : list (value * Z) → value * Z → M (list (value * Z))) :
  (∀ acc p w b w',
     f acc p w = (Ok b, w') → ∃ c, 0 ≤ c ∧ b = vdict_set p.1 c acc) →
  ∀ l acc w r w',
    mfold f l acc w = (Ok r, w') →
    map fst r
    = foldl (λ seen v, if existsb (λ x, py_eq x v) seen then seen
                       else seen ++ [v]) (map fst acc) (map fst l)
    ∧ (Forall (λ p, 0 ≤ p.2) acc → Forall (λ p, 0 ≤ p.2) r).
Proof.
  intros Hf. induction l as [|p l IH]; intros acc w r w' Hrun;
    simpl in Hrun.
  - unfold ret in Hrun. by injection Hrun as <- <-.
  - apply bind_Ok in Hrun as (b & w1 & Hb & Hrun).
    apply Hf in Hb as (c & Hc & ->). apply IH in Hrun as [Hk Hv]. split.
    + rewrite Hk. simpl. by rewrite vdict_set_keys.
    + intros Hacc. apply Hv.
      by apply (vdict_set_Forall_values (λ c, 0 ≤ c)).
Qed.

Section Histogram.

Context `{PyRuntime} `{NoiseRuntime}.

(** X17. When the field has a value in some record and
    [query_histogram] returns, the keys of the noisy histogram are the
    bins, each once and in the order of their first occurrence, where
    the bins are the given ones or else the sorted distinct values; no
    count is negative; and the reported total counts at most the values
    of the field. *)
Theorem query_histogram_bins
  (data : list row) (field : pystr) (bins : option (list value))
  (mechanism : pystr) (w w' : world)
  (noisy_histogram : list (value * Z)) (info : query_info histogram_info) :
  raw_values data field ≠ [] →
  query_histogram data field bins mechanism w
    = (Ok (noisy_histogram, info), w') →
  ∃ used_bins i,
    match bins with
    | Some given => used_bins = given
    | None => py_sorted (py_set (raw_values data field)) = Ok used_bins
    end
    ∧ map fst noisy_histogram = py_set used_bins
    ∧ Forall (λ p, 0 ≤ p.2) noisy_histogram
    ∧ info = QueryInfo i
    ∧ hist_bins i = Z.of_nat (length used_bins)
    ∧ 0 ≤ hist_total_count i ≤ Z.of_nat (length (raw_values data field)).
Proof.
  intros Hvalues Hrun. unfold query_histogram in Hrun.
  destruct (raw_values data field) as [|v vs] eqn:Hraw; [done|].
  set (values := v :: vs) in *. clearbody values.
  apply bind_Ok in Hrun as (used & w1 & Hused & Hrun).
  apply bind_Ok in Hrun as (noisy & w2 & Hnoisy & Hrun).
  inv_get Hrun. unfold ret in Hrun. injection Hrun as <- <- <-.
  exists used. eexists. split.
  { destruct bins as [given|].
    - unfold ret in Hused. by injection Hused as <- _.
    - unfold lift in Hused. by injection Hused as -> _. }
  apply mfold_vdict_set in Hnoisy as [Hkeys Hcounts].
  - split; [|split; [by apply Hcounts; constructor|]].
    + rewrite Hkeys, true_histogram_keys. simpl.
      apply (py_set_of_distinct (py_set used) []);
        [apply py_set_distinct | constructor].
    + split; [reflexivity|]. split; [reflexivity|]. simpl.
      apply true_histogram_total.
  - clear. intros acc [bin_val count] w b w' Hstep.
    apply bind_Ok in Hstep as (x & w1 & _ & Hstep).
    unfold ret in Hstep. injection Hstep as <- _.
    eexists. split; [|reflexivity]. lia.
Qed.

End Histogram.

(** ** The statistics of a privatisation *)

Lemma min_list_Q_lower (x : Q) (l : list Q) :
  Forall (λ y, (min_list_Q x l <= y)%Q) (x :: l).
Proof.
  unfold min_list_Q. revert x.
  induction l as [|y l IH]; intros x; simpl.
  - repeat constructor. lra.
  - specialize (IH (py_min x y)).
    inversion IH as [|? ? Hhd Htl]; subst.
    destruct (py_min_spec x y) as [[Hlt Heq]|[Hle Heq]];
      rewrite Heq in *;
      (constructor; [lra | constructor; [lra | exact Htl]]).
Qed.

Lemma max_list_Q_upper (x : Q) (l : list Q) :
  Forall (λ y, (y <= max_list_Q x l)%Q) (x :: l).
Proof.
  unfold max_list_Q. revert x.
  induction l as [|y l IH]; intros x; simpl.
  - repeat constructor. lra.
  - specialize (IH (py_max x y)).
    inversion IH as [|? ? Hhd Htl]; subst.
    destruct (py_max_spec x y) as [[Hlt Heq]|[Hle Heq]];
      rewrite Heq in *;
      (constructor; [lra | constructor; [lra | exact Htl]]).
Qed.

Lemma min_list_Q_attained (x : Q) (l : list Q) : min_list_Q x l ∈ x :: l.
Proof.
  unfold min_list_Q. revert x.
  induction l as [|y l IH]; intros x; simpl; [apply list_elem_of_here|].
  specialize (IH (py_min x y)).
  destruct (py_min_spec x y) as [[_ Heq]|[_ Heq]]; rewrite Heq in *;
    apply elem_of_cons in IH as [IH|IH].
  - rewrite IH. apply list_elem_of_further, list_elem_of_here.
  - by do 2 apply list_elem_of_further.
  - rewrite IH. apply list_elem_of_here.
  - by do 2 apply list_elem_of_further.
Qed.

Lemma max_list_Q_attained (x : Q) (l : list Q) : max_list_Q x l ∈ x :: l.
Proof.
  unfold max_list_Q. revert x.
  induction l as [|y l IH]; intros x; simpl; [apply list_elem_of_here|].
  specialize (IH (py_max x y)).
  destruct (py_max_spec x y) as [[_ Heq]|[_ Heq]]; rewrite Heq in *;
    apply elem_of_cons in IH as [IH|IH].
  - rewrite IH. apply list_elem_of_further, list_elem_of_here.
  - by do 2 apply list_elem_of_further.
  - rewrite IH. apply list_elem_of_here.
  - by do 2 apply list_elem_of_further.
Qed.

Lemma round4_nonneg (x : Q) : (0 <= x)%Q → (0 <= round4 x)%Q.
Proof.
  intros Hx. apply Qle_trans with (round4 0); [|by apply round4_mono].
  by apply Qle_bool_iff.
Qed.

Section Statistics.

Context `{NoiseRuntime}.

(** X18. [_compute_statistics] reports metrics for exactly the fields
    with at least one recorded change. For such a field the reported
    minimum and maximum difference are each the rounding of a recorded
    difference, the minimum is at most the maximum, the sensitivity is
    the one of the table, or 1, and when no recorded difference is
    negative neither is the minimum. *)
Theorem compute_statistics_metrics
  (s : DifferentialPrivacyService)
  (field_changes : gmap pystr (list change)) (mechanism field : pystr) :
  let stats := _compute_statistics s field_changes mechanism in
  match field_changes !! field with
  | Some (c :: cs) =>
    ∃ m, field_metrics stats !! field = Some m
         ∧ (∃ c', c' ∈ c :: cs
                  ∧ min_difference m = round4 (difference c'))
         ∧ (∃ c', c' ∈ c :: cs
                  ∧ max_difference m = round4 (difference c'))
         ∧ (min_difference m <= max_difference m)%Q
         ∧ sensitivity m = default 1%Q (field_sensitivity s !! field)
         ∧ (Forall (λ c, (0 <= difference c)%Q) (c :: cs) →
            (0 <= min_difference m)%Q)
  | _ => field_metrics stats !! field = None
  end.
Proof.
  intros stats. unfold stats, _compute_statistics. cbn [field_metrics].
  rewrite map_lookup_imap.
  destruct (field_changes !! field) as [[|c cs]|] eqn:Hfield;
    cbn [mbind option_bind map]; [done| |done].
  eexists. split; [reflexivity|].
  cbn [min_difference mae max_difference relative_error sensitivity].
  set (d := difference c). set (ds := map difference cs).
  pose proof (min_list_Q_lower d ds) as Hmin.
  pose proof (max_list_Q_upper d ds) as Hmax.
  pose proof (min_list_Q_attained d ds) as Hin_min.
  pose proof (max_list_Q_attained d ds) as Hin_max.
  change (d :: ds) with (map difference (c :: cs)) in Hin_min, Hin_max.
  apply list_elem_of_fmap in Hin_min as (cmin & Hcmin & Hmin_in).
  apply list_elem_of_fmap in Hin_max as (cmax & Hcmax & Hmax_in).
  split; [exists cmin; by rewrite Hcmin|].
  split; [exists cmax; by rewrite Hcmax|].
  split; [|split; [reflexivity|]].
  - apply round4_mono. inversion Hmax as [|? ? Hd _]; subst.
    inversion Hmin as [|? ? Hd' _]; subst. lra.
  - intros Hdiff. apply round4_nonneg. rewrite Hcmin.
    rewrite Forall_forall in Hdiff. by apply Hdiff.
Qed.

End Statistics.

(** * Examples of the further properties *)

#[local] Existing Instance example_runtime.
#[local] Existing Instance example_noise.

(** One class of two records holds for [k = 2]. *)
Lemma validate_k_anonymity_verdict_witness :
  let cs : classes := [([u8 "Oslo"], example_people)] in
  cs ≠ []
  ∧ ∃ flag m v,
      validate_k_anonymity 2 cs = (flag, m, v)
      ∧ (flag = true ↔ Forall (λ c, 2 ≤ Z.of_nat (length c.2)) cs)
      ∧ (flag = true ↔ v = 0)
      ∧ Forall (λ c, m ≤ Z.of_nat (length c.2)) cs
      ∧ Exists (λ c, Z.of_nat (length c.2) = m) cs.
Proof.
  intros cs. assert (Hcs : cs ≠ []) by discriminate.
  split; [exact Hcs|]. exact (validate_k_anonymity_verdict 2 cs Hcs).
Defined.

(** The two records of the example come back as two records. *)
Lemma anonymize_keeps_record_count_witness :
  ∃ anonymized_data stats,
    anonymize 2 example_people [u8 "name"; u8 "city"] None None 3
      = Ok (anonymized_data, Stats stats)
    ∧ length anonymized_data = length example_people
    ∧ original_records stats = Z.of_nat (length example_people)
    ∧ anonymized_records stats = original_records stats.
Proof.
  assert (Hrun : ∃ anonymized_data stats,
    anonymize 2 example_people [u8 "name"; u8 "city"] None None 3
      = Ok (anonymized_data, Stats stats)).
  { eexists _, _. vm_compute. reflexivity. }
  destruct Hrun as (anonymized_data & stats & Hrun).
  exists anonymized_data, stats. split; [exact Hrun|].
  exact (anonymize_keeps_record_count 2 example_people
           [u8 "name"; u8 "city"] None None 3 anonymized_data stats Hrun).
Defined.

(** The example needs one escalation: two iterations, and the levels are
    the initial ones raised once. *)
Lemma anonymize_iterations_and_levels_witness :
  ∃ anonymized_data stats,
    anonymize 2 example_people [u8 "name"; u8 "city"] None None 3
      = Ok (anonymized_data, Stats stats)
    ∧ 1 ≤ iterations stats ≤ Z.max 0 3 + 1
    ∧ final_generalization_levels stats
      = Nat.iter (Z.to_nat (iterations stats - 1)) enhance_levels
                 (initial_levels [u8 "name"; u8 "city"] None)
    ∧ (1 < iterations stats →
       map_Forall (λ _ level, level ≤ 3)
                  (final_generalization_levels stats)).
Proof.
  assert (Hrun : ∃ anonymized_data stats,
    anonymize 2 example_people [u8 "name"; u8 "city"] None None 3
      = Ok (anonymized_data, Stats stats)).
  { eexists _, _. vm_compute. reflexivity. }
  destruct Hrun as (anonymized_data & stats & Hrun).
  exists anonymized_data, stats. split; [exact Hrun|].
  exact (anonymize_iterations_and_levels 2 example_people
           [u8 "name"; u8 "city"] None None 3 anonymized_data stats Hrun).
Defined.

(** Generalising the name of a record leaves its city alone. *)
Lemma apply_generalization_frame_witness :
  let record : row :=
    {[ u8 "name" := VStr (u8 "abcdef"); u8 "city" := VStr (u8 "Oslo") ]} in
  let levels : gmap pystr Z := {[ u8 "name" := 2 ]} in
  ∃ generalized,
    apply_generalization record [u8 "name"] levels = Ok generalized
    ∧ dom generalized = dom record
    ∧ (∀ field, field ∉ [u8 "name"] →
                generalized !! field = record !! field).
Proof.
  intros record levels.
  assert (Hrun : ∃ generalized,
    apply_generalization record [u8 "name"] levels = Ok generalized).
  { eexists. vm_compute. reflexivity. }
  destruct Hrun as (generalized & Hrun).
  exists generalized. split; [exact Hrun|].
  exact (apply_generalization_frame record [u8 "name"] levels generalized
           Hrun).
Defined.

(** A stage that names the upstream category. *)
Lemma generalize_chain_stage_level_2_witness :
  let s := u8 "上游原材料" in
  s ≠ []
  ∧ ∃ label,
      generalize_chain_stage (VStr s) 2 = Ok (VStr label)
      ∧ ((label ∈ map u8 ["上游"; "中游"; "下游"]%string
          ∧ str_contains label s = true)
         ∨ (label = s
            ∧ Forall (λ category, str_contains category s = false)
                     (map u8 ["上游"; "中游"; "下游"]%string))).
Proof.
  intros s. assert (Hs : s ≠ []).
  { intros Heq. vm_compute in Heq. discriminate. }
  split; [exact Hs|]. exact (generalize_chain_stage_level_2 s Hs).
Defined.

(** The records of the example have no revenue. *)
Lemma queries_without_valid_data_witness :
  let field := u8 "revenue_2023" in
  Forall (λ r : row, r !! field = None ∨ r !! field = Some VNone)
         example_people
  ∧ query_sum example_people field None (u8 "laplace") example_world
    = (Ok (0%Q, QueryError (u8 "No valid data")), example_world)
  ∧ query_average example_people field None (u8 "laplace") example_world
    = (Ok (0%Q, QueryError (u8 "No valid data")), example_world)
  ∧ query_percentile example_people field [25%Q; 50%Q] (u8 "laplace")
                     example_world
    = (Ok ([], QueryError (u8 "No valid data")), example_world)
  ∧ query_histogram example_people field None (u8 "laplace") example_world
    = (Ok ([], QueryError (u8 "No valid data")), example_world).
Proof.
  intros field.
  assert (Hnone : Forall (λ r : row, r !! field = None
                                     ∨ r !! field = Some VNone)
                         example_people).
  { unfold example_people.
    constructor; [left; vm_compute; reflexivity|].
    constructor; [left; vm_compute; reflexivity|]. constructor. }
  split; [exact Hnone|].
  exact (queries_without_valid_data example_people field None
           [25%Q; 50%Q] None (u8 "laplace") example_world Hnone).
Defined.

(** The two ratios of the example under the bounds of the example. *)
Lemma privatize_enterprise_data_frame_witness :
  ∃ privatized_data stats w',
    privatize_enterprise_data example_ratios [u8 "r_and_d_ratio"]
      (u8 "laplace") (Some example_bounds) example_world
      = (Ok (privatized_data, stats), w')
    ∧ length privatized_data = length example_ratios
    ∧ ∀ i record private_record,
        example_ratios !! i = Some record →
        privatized_data !! i = Some private_record →
        noised_copy (self w') [u8 "r_and_d_ratio"] record private_record.
Proof.
  assert (Hrun : ∃ privatized_data stats w',
    privatize_enterprise_data example_ratios [u8 "r_and_d_ratio"]
      (u8 "laplace") (Some example_bounds) example_world
      = (Ok (privatized_data, stats), w')).
  { eexists _, _, _. vm_compute. reflexivity. }
  destruct Hrun as (privatized_data & stats & w' & Hrun).
  exists privatized_data, stats, w'. split; [exact Hrun|].
  exact (privatize_enterprise_data_frame example_ratios
           [u8 "r_and_d_ratio"] (u8 "laplace") (Some example_bounds)
           example_world w' privatized_data stats Hrun).
Defined.

(** The histogram of the cities of the example has the one bin. *)
Lemma query_histogram_bins_witness :
  raw_values example_people (u8 "city") ≠ []
  ∧ ∃ noisy_histogram info w' used_bins i,
      query_histogram example_people (u8 "city") None (u8 "laplace")
                      example_world
        = (Ok (noisy_histogram, info), w')
      ∧ py_sorted (py_set (raw_values example_people (u8 "city")))
        = Ok used_bins
      ∧ map fst noisy_histogram = py_set used_bins
      ∧ Forall (λ p, 0 ≤ p.2) noisy_histogram
      ∧ info = QueryInfo i
      ∧ hist_bins i = Z.of_nat (length used_bins)
      ∧ 0 ≤ hist_total_count i
          ≤ Z.of_nat (length (raw_values example_people (u8 "city"))).
Proof.
  assert (Hvalues : raw_values example_people (u8 "city") ≠ []).
  { intros Heq. vm_compute in Heq. discriminate. }
  split; [exact Hvalues|].
  assert (Hrun : ∃ noisy_histogram info w',
    query_histogram example_people (u8 "city") None (u8 "laplace")
                    example_world
      = (Ok (noisy_histogram, info), w')).
  { eexists _, _, _. vm_compute. reflexivity. }
  destruct Hrun as (noisy_histogram & info & w' & Hrun).
  destruct (query_histogram_bins example_people (u8 "city") None
              (u8 "laplace") example_world w' noisy_histogram info
              Hvalues Hrun) as (used_bins & i & Hspec).
  exists noisy_histogram, info, w', used_bins, i. split; [exact Hrun|].
  exact Hspec.
Defined.

